(** * Connection orchestration of the cinder block-storage drivers

    A shallow embedding of
    - [cinder/volume/drivers/pure.py]: the Pure Storage FlashArray REST
      client ([FlashArray]) and the iSCSI driver built on it
      ([PureISCSIDriver]);
    - the NetApp block-storage library exercised by
      [cinder/tests/volume/drivers/netapp/dataontap/test_block_base.py].

    Remote collaborators (the HTTP opener, the array behind [self._array],
    the NetApp [zapi_client]) are deterministic oracles: the answer to a call
    is a function of the calls made so far and of the call itself.  A run
    threads the call history, so every theorem can say which calls were
    issued and in which order. *)

From Stdlib Require Import List String Ascii ZArith NArith Bool Arith Lia.
From Stdlib Require Import Sorted.
Import ListNotations.

Local Open Scope string_scope.
Local Open Scope list_scope.

Set Warnings "-register-all".

(* ================================================================== *)
(** * Part I.  Definitions *)
(* ================================================================== *)

(** ** Python values, exceptions and the run-time conventions used below *)

Module Py.

(** What [json.loads] delivers and what the driver passes around. *)
Inductive json : Type :=
| JNull
| JBool (b : bool)
| JInt (z : Z)
| JStr (s : string)
| JList (l : list json)
| JDict (d : list (string * json)).

(** The exceptions that occur in the modelled code.  [PureAPIException]
    carries the code its raiser gave ([None] when it gave none) and the
    message text; [PyError] stands for the interpreter's own exceptions
    (KeyError, TypeError, ...), named by their class. *)
Inductive exn : Type :=
| PureAPIException (code : option Z) (msg : string)
| PureDriverException (reason : string)
| NaApiError (code : string) (message : string)
| VolumeNotFound (volume : string)
| NotImplementedError
| PyError (cls : string).

(** Outcome of a call: a value, a raised exception, or the recursion budget
    of the model used up. *)
Inductive result (A : Type) : Type :=
| Return (a : A)
| Raise (e : exn)
| OutOfFuel.

Arguments Return {A} a.
Arguments Raise {A} e.
Arguments OutOfFuel {A}.

(** What [for x in v] iterates over: the items of a list, the keys of a
    dict, the characters of a string; other values are not iterable. *)
Definition iter_items (v : json) : option (list json) :=
  match v with
  | JList l => Some l
  | JDict d => Some (map (fun kv => JStr (fst kv)) d)
  | JStr s => Some (map (fun c => JStr (String c "")) (list_ascii_of_string s))
  | _ => None
  end.

(** State-and-exception monad: [S] is whatever the code mutates (object
    attributes, the history of remote calls). *)
Definition M (S A : Type) : Type := S -> result A * S.

Definition ret {S A} (a : A) : M S A := fun s => (Return a, s).

Definition raise {S A} (e : exn) : M S A := fun s => (Raise e, s).

Definition bind {S A B} (m : M S A) (k : A -> M S B) : M S B :=
  fun s =>
    match m s with
    | (Return a, s') => k a s'
    | (Raise e, s') => (Raise e, s')
    | (OutOfFuel, s') => (OutOfFuel, s')
    end.

(** [try: body except <exceptions selected by handler>: handler]: the handler
    answers [None] for an exception the [except] clause does not name. *)
Definition try_except {S A} (body : M S A) (handler : exn -> option (M S A))
  : M S A :=
  fun s =>
    match body s with
    | (Raise e, s') =>
        match handler e with
        | Some h => h s'
        | None => (Raise e, s')
        end
    | r => r
    end.

(** [with excutils.save_and_reraise_exception() as ctxt: block].  The block
    answers the final value of [ctxt.reraise]; an exception raised inside the
    block replaces the saved one. *)
Definition save_and_reraise_exception {S A} (saved : exn)
  (block : M S (bool * A)) : M S A :=
  bind block (fun r => if fst r then raise saved else ret (snd r)).

(** [err.kwargs["code"]].  An exception raised without a code carries the
    default code of cinder's exceptions, 500: their base class, in
    [cinder/exception.py], stores it in [kwargs] when the raiser gave
    none. *)
Definition default_code : Z := 500.

Definition kwargs_code {S} (code : option Z) : M S Z :=
  match code with
  | Some c => ret c
  | None => ret default_code
  end.

(** The items a [for] loop runs over, or TypeError. *)
Definition iterate {S} (v : json) : M S (list json) :=
  match iter_items v with
  | Some l => ret l
  | None => raise (PyError "TypeError")
  end.

(** A value used where the code needs a string (a regular-expression match,
    a name).  Names on the array are strings, and every statement below is
    about string names.  For any other value the model raises TypeError
    here, where the name is taken from the record; the code would first
    pass the value on and fail at its first use as a string. *)
Definition as_str {S} (v : json) : M S string :=
  match v with
  | JStr s => ret s
  | _ => raise (PyError "TypeError")
  end.

(** Python truth value of a JSON value. *)
Definition truthy (v : json) : bool :=
  match v with
  | JNull => false
  | JBool b => b
  | JInt z => negb (z =? 0)%Z
  | JStr s => negb (s =? "")
  | JList l => match l with [] => false | _ => true end
  | JDict d => match d with [] => false | _ => true end
  end.

Fixpoint assoc (k : string) (d : list (string * json)) : option json :=
  match d with
  | [] => None
  | (k', v) :: d' => if k' =? k then Some v else assoc k d'
  end.

(** [v[key]] for a string key. *)
Definition getitem {S} (v : json) (key : string) : M S json :=
  match v with
  | JDict d =>
      match assoc key d with
      | Some x => ret x
      | None => raise (PyError "KeyError")
      end
  | _ => raise (PyError "TypeError")
  end.

(** [v == s] for a string [s]. *)
Definition eq_str (v : json) (s : string) : bool :=
  match v with
  | JStr s' => s' =? s
  | _ => false
  end.

(** [sub in s] on strings: [sub] occurs in [s]. *)
Fixpoint str_in (sub s : string) : bool :=
  prefix sub s ||
  match s with
  | EmptyString => false
  | String _ s' => str_in sub s'
  end.

(** [x in v] for a string [x]: membership in a list, key of a dict,
    substring of a string. *)
Definition contains {S} (x : string) (v : json) : M S bool :=
  match v with
  | JList l => ret (existsb (fun y => eq_str y x) l)
  | JDict d => ret (existsb (fun kv => fst kv =? x) d)
  | JStr s => ret (str_in x s)
  | _ => raise (PyError "TypeError")
  end.

(** [s.lstrip(chars)] for a one-character [chars]. *)
Fixpoint lstrip (ch : ascii) (s : string) : string :=
  match s with
  | String c s' => if Ascii.eqb c ch then lstrip ch s' else s
  | EmptyString => EmptyString
  end.

(** [uuid.uuid4().hex]: the 128-bit value of the UUID written as 32
    lowercase hexadecimal digits, most significant first. *)
Definition hex_digit (n : N) : ascii :=
  ascii_of_N (if (n <? 10)%N then 48 + n else 87 + n).

Fixpoint hex_digits (k : nat) (u : N) : string :=
  match k with
  | O => ""
  | S k' => hex_digits k' (u / 16) ++ String (hex_digit (u mod 16)) ""
  end.

Definition uuid_hex (u : N) : string := hex_digits 32 u.

End Py.

Module PyNotations.
Notation "x <- m ;; k" := (Py.bind m (fun x => k))
  (at level 61, m at next level, right associativity).
Notation "m ;;; k" := (Py.bind m (fun _ => k))
  (at level 61, right associativity).
End PyNotations.

(** ** The fragment of [re] that the driver's two patterns need *)

Module Re.

(** One-character matchers. *)
Inductive atom : Type :=
| Dot                                           (* .  : anything but newline *)
| Lit (c : ascii)
| Class (negated : bool) (ranges : list (ascii * ascii)).   (* [a-z] [^a-z] *)

Inductive item : Type :=
| One (a : atom)
| Star (a : atom)                               (* a*  (greedy) *)
| Rep (n : nat) (a : atom)                      (* a{n} *)
| Eol.                                          (* $ without MULTILINE *)

Definition regex : Type := list item.

Definition newline : ascii := ascii_of_N 10.

Definition in_range (c : ascii) (r : ascii * ascii) : bool :=
  (N_of_ascii (fst r) <=? N_of_ascii c)%N
  && (N_of_ascii c <=? N_of_ascii (snd r))%N.

Definition atom_ok (a : atom) (c : ascii) : bool :=
  match a with
  | Dot => negb (Ascii.eqb c newline)
  | Lit c' => Ascii.eqb c c'
  | Class negated ranges => xorb negated (existsb (in_range c) ranges)
  end.

(** [$] matches at the end of the string and just before a final newline. *)
Definition at_eol (s : string) : bool :=
  match s with
  | EmptyString => true
  | String c EmptyString => Ascii.eqb c newline
  | _ => false
  end.

Fixpoint star_match (a : atom) (k : string -> bool) (s : string) : bool :=
  match s with
  | String c s' => (atom_ok a c && star_match a k s') || k s
  | EmptyString => k s
  end.

Fixpoint rep_match (n : nat) (a : atom) (k : string -> bool) (s : string)
  : bool :=
  match n with
  | O => k s
  | S n' =>
      match s with
      | String c s' => atom_ok a c && rep_match n' a k s'
      | EmptyString => false
      end
  end.

(** Backtracking match of [r] against a prefix of [s]. *)
Fixpoint match_here (r : regex) (s : string) : bool :=
  match r with
  | [] => true
  | One a :: r' =>
      match s with
      | String c s' => atom_ok a c && match_here r' s'
      | EmptyString => false
      end
  | Star a :: r' => star_match a (match_here r') s
  | Rep n a :: r' => rep_match n a (match_here r') s
  | Eol :: r' => at_eol s && match_here r' s
  end.

(** [pattern.match(s)]: a match anchored at the start of [s]. *)
Definition re_match (r : regex) (s : string) : bool := match_here r s.

(** [pattern.sub(repl, s)] for a pattern that is a single one-character
    matcher: every matching character is replaced. *)
Fixpoint sub1 (a : atom) (repl : ascii) (s : string) : string :=
  match s with
  | EmptyString => EmptyString
  | String c s' => String (if atom_ok a c then repl else c) (sub1 a repl s')
  end.

Definition lits (s : string) : regex :=
  map (fun c => One (Lit c)) (list_ascii_of_string s).

End Re.

(** ** [cinder/volume/drivers/pure.py] *)

Module Pure.
Import Py PyNotations.

Definition dash : ascii := "-"%char.

(** [INVALID_CHARACTERS = re.compile(r"[^-a-zA-Z0-9]")] *)
Definition INVALID_CHARACTERS : Re.atom :=
  Re.Class true [(dash, dash); ("a"%char, "z"%char); ("A"%char, "Z"%char);
                 ("0"%char, "9"%char)].

Definition HEX_LOWER : Re.atom :=
  Re.Class false [("a"%char, "f"%char); ("0"%char, "9"%char)].

(** [GENERATED_NAME = re.compile(r".*-[a-f0-9]{32}-cinder$")] *)
Definition GENERATED_NAME : Re.regex :=
  Re.Star Re.Dot :: Re.One (Re.Lit dash) :: Re.Rep 32 HEX_LOWER
    :: Re.lits "-cinder" ++ [Re.Eol].

Record volume : Type := { v_name : string; v_size : Z }.

Record snapshot : Type :=
  { s_volume_name : string; s_name : string; s_volume_size : Z }.

Record connector : Type := { c_host : string; c_initiator : string }.

Definition _get_vol_name (v : volume) : string := v_name v ++ "-cinder".

Definition _get_snap_name (s : snapshot) : string :=
  s_volume_name s ++ "-cinder." ++ s_name s.

(** [u] is the value of [uuid.uuid4()] drawn by the call. *)
Definition _generate_purity_host_name (name : string) (u : N) : string :=
  let name :=
    if (23 <? String.length name)%nat then substring 0 23 name else name in
  let name := Re.sub1 INVALID_CHARACTERS dash name in
  let name := lstrip dash name in
  name ++ "-" ++ uuid_hex u ++ "-cinder".

(** *** class FlashArray: the REST client *)

Module FlashArray.

Record request : Type := { method : string; url : string; body : json }.

(** What [self._opener.open(req, body)] does: raise [urllib2.HTTPError]
    (any status other than 200), raise [urllib2.URLError], or give a
    response with its Content-Type header, its text and what [json.loads]
    makes of that text ([None]: ValueError). *)
Inductive response : Type :=
| HTTPError (code : Z) (text : string)
| URLError
| Response (content_type : option string) (content : string)
           (loads : option json).

(** The attributes of a [FlashArray] object; [None] is an attribute that
    [__init__] has not assigned yet. *)
Record self_t : Type :=
  { _target : string;
    _rest_version : option string;
    _root_url : string;
    _api_token : option string }.

Definition set_root_url (u : string) (o : self_t) : self_t :=
  {| _target := _target o; _rest_version := _rest_version o;
     _root_url := u; _api_token := _api_token o |}.

Definition set_rest_version (v : string) (o : self_t) : self_t :=
  {| _target := _target o; _rest_version := Some v;
     _root_url := _root_url o; _api_token := _api_token o |}.

Definition set_api_token (t : string) (o : self_t) : self_t :=
  {| _target := _target o; _rest_version := _rest_version o;
     _root_url := _root_url o; _api_token := Some t |}.

(** The object and the requests sent so far. *)
Definition world : Type := (self_t * list request)%type.

Definition FA (A : Type) : Type := M world A.

Definition SUPPORTED_REST_API_VERSIONS : list string := ["1.3"; "1.2"].

(** ["https://%s/api/" % target] and ["https://%s/api/%s/" % (target,
    version)]. *)
Definition bare_root (target : string) : string :=
  "https://" ++ target ++ "/api/".

Definition versioned_root (target version : string) : string :=
  "https://" ++ target ++ "/api/" ++ version ++ "/".

Definition get_self : FA self_t := fun w => (Return (fst w), w).

Definition modify_self (f : self_t -> self_t) : FA unit :=
  fun w => (Return tt, (f (fst w), snd w)).

(** Reading an attribute that may not be assigned yet. *)
Definition attr {A} (a : option A) : FA A :=
  match a with
  | Some x => ret x
  | None => raise (PyError "AttributeError")
  end.

(** [list.sort(reverse=True)] on strings. *)
Fixpoint insert_desc (x : string) (l : list string) : list string :=
  match l with
  | [] => [x]
  | y :: l' => if String.ltb y x then x :: l else y :: insert_desc x l'
  end.

Fixpoint sort_desc (l : list string) : list string :=
  match l with
  | [] => []
  | x :: l' => insert_desc x (sort_desc l')
  end.

(** The version list of an [api_version] reply: a list of strings.  A
    reply of another shape is outside the model and reported as a
    TypeError. *)
Fixpoint strings_of (l : list json) : option (list string) :=
  match l with
  | [] => Some []
  | JStr s :: l' => option_map (cons s) (strings_of l')
  | _ :: _ => None
  end.

Definition version_list (v : json) : FA (list string) :=
  match v with
  | JList l =>
      match strings_of l with
      | Some vs => ret vs
      | None => raise (PyError "TypeError")
      end
  | _ => raise (PyError "AttributeError")
  end.

(** The [for version in available_versions] loop of
    [_choose_rest_version]. *)
Definition first_supported (available_versions : list string)
  : option string :=
  find (fun version =>
          existsb (String.eqb version) SUPPORTED_REST_API_VERSIONS)
       available_versions.

Section Client.

(** The array's HTTP endpoint as an oracle on the requests seen so far. *)
Variable opener : list request -> request -> response.

Definition open (req : request) : FA response :=
  fun w => (Return (opener (snd w) req), (fst w, snd w ++ [req])).

Section Methods.

(** [_choose_rest_version] and [_start_session] call back into
    [_http_request]; they are written against the recursive call. *)
Variable http_request : string -> string -> json -> bool -> FA json.

Definition _choose_rest_version_with : FA string :=
  o <- get_self ;;
  modify_self (set_root_url (bare_root (_target o))) ;;;
  data <- http_request "GET" "api_version" JNull true ;;
  available_versions <- getitem data "version" ;;
  available_versions <- version_list available_versions ;;
  match first_supported (sort_desc available_versions) with
  | Some version => ret version
  | None =>
      raise (PureDriverException
               ("All REST API versions supported by this version of "
                ++ "the Pure Storage iSCSI driver are unavailable on "
                ++ "array."))
  end.

Definition _start_session_with : FA unit :=
  o <- get_self ;;
  token <- attr (_api_token o) ;;
  http_request "POST" "auth/session" (JDict [("api_token", JStr token)])
    false ;;;
  ret tt.

End Methods.

(** [fuel] bounds the depth of the recursion through [_http_request].  The
    [%r] of the target in the "Unable to connect" text is written as the
    target between quotes. *)
Fixpoint _http_request (fuel : nat) (method path : string) (data : json)
  (reestablish_session : bool) : FA json :=
  match fuel with
  | O => fun w => (OutOfFuel, w)
  | S fuel' =>
      o <- get_self ;;
      resp <- open {| method := method; url := _root_url o ++ path;
                      body := data |} ;;
      match resp with
      | HTTPError code text =>
          if reestablish_session && (code =? 401)%Z then
            _start_session_with (_http_request fuel') ;;;
            _http_request fuel' method path data false
          else if (code =? 450)%Z then
            new_version <- _choose_rest_version_with (_http_request fuel') ;;
            o <- get_self ;;
            current <- attr (_rest_version o) ;;
            if new_version =? current then
              raise (PureAPIException (Some code)
                       ("Unable to find usable REST API version. "
                        ++ "Response from Pure Storage REST API: " ++ text))
            else
              modify_self (set_rest_version new_version) ;;;
              modify_self (set_root_url
                             (versioned_root (_target o) new_version)) ;;;
              _http_request fuel' method path data true
          else
            raise (PureAPIException (Some code) text)
      | URLError =>
          raise (PureDriverException
                   ("Unable to connect to '" ++ _target o
                    ++ "'. Check san_ip."))
      | Response content_type content loads =>
          match content_type with
          | None => raise (PyError "TypeError")
          | Some ct =>
              if str_in "application/json" ct then
                match loads with
                | Some v => ret v
                | None => raise (PyError "ValueError")
                end
              else
                raise (PureAPIException None
                         ("Response not in JSON: " ++ content))
          end
      end
  end.

Definition _choose_rest_version (fuel : nat) : FA string :=
  _choose_rest_version_with (_http_request fuel).

Definition _start_session (fuel : nat) : FA unit :=
  _start_session_with (_http_request fuel).

(** [FlashArray(target, api_token)], started on a history [sent]. *)
Definition __init__ (fuel : nat) (target api_token : string)
  (sent : list request) : result unit * world :=
  (version <- _choose_rest_version fuel ;;
   modify_self (set_rest_version version) ;;;
   modify_self (set_root_url (versioned_root target version)) ;;;
   modify_self (set_api_token api_token) ;;;
   _start_session fuel)
    ({| _target := target; _rest_version := None; _root_url := "";
        _api_token := None |}, sent).

(** The single-request operations the driver uses. *)
Definition destroy_volume (fuel : nat) (volume : string) : FA json :=
  _http_request fuel "DELETE" ("volume/" ++ volume) JNull true.

Definition list_hosts (fuel : nat) : FA json :=
  _http_request fuel "GET" "host" (JDict []) true.

Definition list_host_connections (fuel : nat) (host : string)
  (private : bool) : FA json :=
  _http_request fuel "GET" ("host/" ++ host ++ "/volume")
    (JDict [("private", JBool private)]) true.

Definition create_host (fuel : nat) (host : string) (iqnlist : list string)
  : FA json :=
  _http_request fuel "POST" ("host/" ++ host)
    (JDict [("iqnlist", JList (map JStr iqnlist))]) true.

Definition delete_host (fuel : nat) (host : string) : FA json :=
  _http_request fuel "DELETE" ("host/" ++ host) JNull true.

Definition connect_host (fuel : nat) (host volume : string) : FA json :=
  _http_request fuel "POST" ("host/" ++ host ++ "/volume/" ++ volume)
    (JDict []) true.

Definition disconnect_host (fuel : nat) (host volume : string) : FA json :=
  _http_request fuel "DELETE" ("host/" ++ host ++ "/volume/" ++ volume)
    JNull true.

Definition list_volume_hosts (fuel : nat) (volume : string) : FA json :=
  _http_request fuel "GET" ("volume/" ++ volume ++ "/host") JNull true.

End Client.

End FlashArray.

(** *** class PureISCSIDriver *)

Module PureISCSIDriver.

(** The operations invoked on [self._array]. *)
Inductive call : Type :=
| ListVolumeHosts (volume : string)
| DisconnectHost (host volume : string)
| DestroyVolume (volume : string)
| ListHostConnections (host : string) (private : bool)
| DeleteHost (host : string)
| ListHosts
| CreateHost (host : string) (iqnlist : list string)
| ConnectHost (host volume : string).

Definition D (A : Type) : Type := M (list call) A.

Section Driver.

(** [self._array]: its answer depends on everything asked before. *)
Variable array : list call -> call -> result json.

Definition ask (c : call) : D json :=
  fun h => (array h c, h ++ [c]).

Definition _disconnect_host (host_name vol_name : string) : D unit :=
  try_except
    (ask (DisconnectHost host_name vol_name) ;;; ret tt)
    (fun err =>
       match err with
       | PureAPIException code msg =>
           Some (save_and_reraise_exception err
                   (c <- kwargs_code code ;;
                    if (c =? 400)%Z then ret (false, tt) else ret (true, tt)))
       | _ => None
       end) ;;;
  if Re.re_match GENERATED_NAME host_name then
    connections <- ask (ListHostConnections host_name true) ;;
    if negb (truthy connections) then
      ask (DeleteHost host_name) ;;; ret tt
    else ret tt
  else ret tt.

(** The [for host_info in connected_hosts] loop of [delete_volume]. *)
Fixpoint disconnect_all (connected_hosts : list json) (vol_name : string)
  : D unit :=
  match connected_hosts with
  | [] => ret tt
  | host_info :: rest =>
      host_name <- getitem host_info "host" ;;
      host_name <- as_str host_name ;;
      _disconnect_host host_name vol_name ;;;
      disconnect_all rest vol_name
  end.

(** The [try] block of [delete_volume]. *)
Definition delete_volume_body (vol_name : string) : D unit :=
  connected_hosts <- ask (ListVolumeHosts vol_name) ;;
  connected_hosts <- iterate connected_hosts ;;
  disconnect_all connected_hosts vol_name ;;;
  ask (DestroyVolume vol_name) ;;;
  ret tt.

Definition delete_volume (v : volume) : D unit :=
  let vol_name := _get_vol_name v in
  try_except
    (delete_volume_body vol_name)
    (fun err =>
       match err with
       | PureAPIException code msg =>
           Some (save_and_reraise_exception err
                   (c <- kwargs_code code ;;
                    if (c =? 400)%Z && str_in "Volume does not exist" msg
                    then ret (false, tt) else ret (true, tt)))
       | _ => None
       end).

Definition delete_snapshot (s : snapshot) : D unit :=
  let snap_name := _get_snap_name s in
  try_except
    (ask (DestroyVolume snap_name) ;;; ret tt)
    (fun err =>
       match err with
       | PureAPIException code msg =>
           Some (save_and_reraise_exception err
                   (c <- kwargs_code code ;;
                    if (c =? 400)%Z then ret (false, tt) else ret (true, tt)))
       | _ => None
       end).

(** The [for host in hosts] loop of [_get_host]. *)
Fixpoint _get_host_loop (initiator : string) (hosts : list json)
  : D (option json) :=
  match hosts with
  | [] => ret None
  | host :: rest =>
      iqn <- getitem host "iqn" ;;
      found <- contains initiator iqn ;;
      if found then ret (Some host) else _get_host_loop initiator rest
  end.

Definition _get_host (c : connector) : D (option json) :=
  hosts <- ask ListHosts ;;
  hosts <- iterate hosts ;;
  _get_host_loop (c_initiator c) hosts.

(** The search of the re-listed hosts in [_connect]; [JNull] is the
    initial [connection = None]. *)
Fixpoint find_connection (host_name : string) (connected_hosts : list json)
  : D json :=
  match connected_hosts with
  | [] => ret JNull
  | host_info :: rest =>
      h <- getitem host_info "host" ;;
      if eq_str h host_name then ret host_info
      else find_connection host_name rest
  end.

(** The first half of [_connect]: the name of the host to connect, an
    existing one or one created under a generated name; [u] is the UUID
    drawn if a name has to be generated. *)
Definition _connect_host_name (c : connector) (u : N) : D string :=
  host <- _get_host c ;;
  match host with
  | Some host =>
      if truthy host then
        n <- getitem host "name" ;; as_str n
      else
        let host_name := _generate_purity_host_name (c_host c) u in
        ask (CreateHost host_name [c_initiator c]) ;;; ret host_name
  | None =>
      let host_name := _generate_purity_host_name (c_host c) u in
      ask (CreateHost host_name [c_initiator c]) ;;; ret host_name
  end.

Definition _connect (v : volume) (c : connector) (u : N) : D json :=
  let vol_name := _get_vol_name v in
  host_name <- _connect_host_name c u ;;
  connection <-
    try_except
      (ask (ConnectHost host_name vol_name))
      (fun err =>
         match err with
         | PureAPIException code msg =>
             Some (save_and_reraise_exception err
                     (code <- kwargs_code code ;;
                      if (code =? 400)%Z
                         && str_in "Connection already exists" msg
                      then
                        connected_hosts <- ask (ListVolumeHosts vol_name) ;;
                        connected_hosts <- iterate connected_hosts ;;
                        connection <- find_connection host_name
                                        connected_hosts ;;
                        ret (false, connection)
                      else ret (true, JNull)))
         | _ => None
         end) ;;
  if negb (truthy connection) then
    raise (PureDriverException "Unable to connect or find connection to host")
  else ret connection.

Definition terminate_connection (v : volume) (c : connector) : D unit :=
  let vol_name := _get_vol_name v in
  host <- _get_host c ;;
  match host with
  | Some host =>
      if truthy host then
        n <- getitem host "name" ;;
        host_name <- as_str n ;;
        _disconnect_host host_name vol_name
      else ret tt
  | None => ret tt
  end.

End Driver.

End PureISCSIDriver.

End Pure.

(** ** The NetApp block-storage library

    [block_base.py] is not among the sources; its behaviour is modelled from
    the specification and from the calls and expectations of
    [test_block_base.py]. *)

Module NetApp.
Import Py PyNotations.

(** Modelled from the spec: the InitiatorGroup of section 3, as the
    missing [zapi_client] lists it: a named collection of initiators with
    its protocol and OS type. *)
Record igroup : Type :=
  { ig_name : string;
    ig_type : string;
    ig_os : string;
    ig_initiators : list string }.

(** Modelled from the spec: the calls of the missing [block_base.py] on
    [self.zapi_client], by the names the tests check them under. *)
Inductive zcall : Type :=
| GetIgroupByInitiators (initiators : list string)
| CreateIgroup (name protocol os : string)
| AddIgroupInitiator (name initiator : string)
| MapLun (path name : string) (lun_id : option string)
| UnmapLun (path name : string).

Definition answer_of (c : zcall) : Type :=
  match c with
  | GetIgroupByInitiators _ => list igroup
  | CreateIgroup _ _ _ => unit
  | AddIgroupInitiator _ _ => unit
  | MapLun _ _ _ => string
  | UnmapLun _ _ => unit
  end.

Definition L (A : Type) : Type := M (list zcall) A.

(** Modelled from the spec: the array behind the missing [zapi_client], as
    an oracle on the calls so far. *)
Definition zapi : Type := list zcall -> forall c : zcall, result (answer_of c).

Definition ask (array : zapi) (c : zcall) : L (answer_of c) :=
  fun h => (array h c, h ++ [c]).

(** Modelled from the spec: the capabilities a protocol family (Fibre
    Channel, iSCSI) must supply to [NetAppBlockStorageLibrary], which is
    missing from the sources: discovery of a pre-existing mapping, answering
    a group and a LUN id (both absent when there is no mapping), and the
    list of the array's target WWPNs. *)
Class ProtocolFamily : Type :=
  { _find_mapped_lun_igroup :
      string -> list string -> L (option string * option string);
    _get_fc_target_wwpns : L (list string) }.

(** Modelled from the spec: the base behaviour of the two capabilities of
    the missing [NetAppBlockStorageLibrary], a "not implemented" fault
    ([test_find_mapped_lun_igroup], [test_get_fc_target_wwpns]). *)
Definition base_library : ProtocolFamily :=
  {| _find_mapped_lun_igroup := fun _ _ => raise NotImplementedError;
     _get_fc_target_wwpns := raise NotImplementedError |}.

(** Modelled from the spec: what the local cross-reference, missing from
    the sources, holds for a volume (section 4.4; the ['Path'] and
    ['OsType'] entries of [test_map_lun]). *)
Record lun_attr : Type := { Path : string; OsType : string }.

(** Modelled from the spec: one line of the answer of the fabric lookup
    service, which is missing from the sources (sections 4.5 and 6): an
    initiator, the targets it reaches and its path count. *)
Record fabric_entry : Type :=
  { fe_initiator : string;
    fe_targets : list string;
    fe_paths : nat }.

(** A Python dict with string keys, in insertion order. *)
Fixpoint dict_set {V} (k : string) (v : V) (d : list (string * V))
  : list (string * V) :=
  match d with
  | [] => [(k, v)]
  | (k', v') :: d' =>
      if k' =? k then (k, v) :: d' else (k', v') :: dict_set k v d'
  end.

Fixpoint dict_get {V} (k : string) (d : list (string * V)) : option V :=
  match d with
  | [] => None
  | (k', v) :: d' => if k' =? k then Some v else dict_get k d'
  end.

Section Library.

Variable array : zapi.
Context {family : ProtocolFamily}.

(** [self._get_lun_attr(name, 'metadata')]: the local table. *)
Variable lun_table : string -> option lun_attr.

(** [self.lookup_service] and its [get_device_mapping_from_network]. *)
Variable lookup_service :
  option (list string -> list string -> list fabric_entry).

Definition IGROUP_PREFIX : string := "openstack-".

(** Modelled from the spec: the loop of the missing
    [_get_or_create_igroup] that adds each initiator individually (section
    4.3; [test_get_or_create_igroup_none_preexisting] counts one
    [add_igroup_initiator] call per initiator). *)
Fixpoint add_initiators (igroup_name : string) (initiators : list string)
  : L unit :=
  match initiators with
  | [] => ret tt
  | initiator :: rest =>
      ask array (AddIgroupInitiator igroup_name initiator) ;;;
      add_initiators igroup_name rest
  end.

(** Modelled from the spec: [_get_or_create_igroup] of the missing
    [block_base.py] (section 4.3): the first group the array lists for the
    initiators, else a new group named by the prefix and a fresh UUID [u],
    created with the protocol and OS type and then given the initiators one
    by one. *)
Definition _get_or_create_igroup (initiator_list : list string)
  (initiator_group_type host_os_type : string) (u : string) : L string :=
  igroups <- ask array (GetIgroupByInitiators initiator_list) ;;
  match igroups with
  | ig :: _ => ret (ig_name ig)
  | [] =>
      let igroup_name := (IGROUP_PREFIX ++ u)%string in
      ask array (CreateIgroup igroup_name initiator_group_type
                   host_os_type) ;;;
      add_initiators igroup_name initiator_list ;;;
      ret igroup_name
  end.

(** Modelled from the spec: [_map_lun] of the missing [block_base.py]
    (section 4.4).  [test_map_lun_preexisting] and [test_map_lun_api_error]
    raise a plain [NaApiError] from the map call and expect the fallback, so
    every [NaApiError] of the map call takes it. *)
Definition _map_lun (name : string) (initiator_list : list string)
  (initiator_type : string) (lun_id : option string) (u : string)
  : L string :=
  match lun_table name with
  | None => raise (VolumeNotFound name)
  | Some metadata =>
      let path := Path metadata in
      igroup_name <- _get_or_create_igroup initiator_list initiator_type
                       (OsType metadata) u ;;
      try_except
        (ask array (MapLun path igroup_name lun_id))
        (fun err =>
           match err with
           | NaApiError _ _ =>
               Some (found <- _find_mapped_lun_igroup path initiator_list ;;
                     match snd found with
                     | Some lun => ret lun
                     | None => raise err
                     end)
           | _ => None
           end)
  end.

(** Modelled from the spec: [_unmap_lun] of the missing [block_base.py]
    (section 4.4, [test_unmap_lun]). *)
Definition _unmap_lun (path : string) (initiator_list : list string)
  : L unit :=
  found <- _find_mapped_lun_igroup path initiator_list ;;
  match fst found with
  | Some igroup_name => ask array (UnmapLun path igroup_name)
  | None => ret tt
  end.

(** Modelled from the spec: [_build_initiator_target_map] of the missing
    [block_base.py] (section 4.5), answering the target WWPNs, the
    initiator-target map and the number of paths.  The fatal "no reachable
    targets" condition belongs to the caller
    ([test_initialize_connection_fc_no_wwpns]). *)
Definition _build_initiator_target_map (connector_wwpns : list string)
  : L (list string * list (string * list string) * nat) :=
  all_target_wwpns <- _get_fc_target_wwpns ;;
  match lookup_service with
  | Some get_device_mapping_from_network =>
      let dev_map :=
        get_device_mapping_from_network connector_wwpns all_target_wwpns in
      let target_wwpns :=
        nodup string_dec (List.concat (map fe_targets dev_map)) in
      let init_targ_map :=
        fold_left (fun d e => dict_set (fe_initiator e) (fe_targets e) d)
          dev_map [] in
      let num_paths := list_sum (map fe_paths dev_map) in
      ret (target_wwpns, init_targ_map, num_paths)
  | None =>
      let init_targ_map :=
        fold_left (fun d initiator => dict_set initiator all_target_wwpns d)
          connector_wwpns [] in
      ret (all_target_wwpns, init_targ_map, 0)
  end.

End Library.

(** *** An array that keeps its groups

    The array's own store of initiator groups is not in the sources; it is
    modelled from sections 3 and 4.3 of the specification. *)


Definition new_group (name protocol os : string) (members : list string)
  : igroup :=
  {| ig_name := name; ig_type := protocol; ig_os := os;
     ig_initiators := members |}.

(** [x in l]. *)
Definition mem (x : string) (l : list string) : bool :=
  existsb (String.eqb x) l.






End NetApp.

(** ** [pure.py]: the volume operations of the driver *)

Module PureVolumeOps.
Import Py PyNotations Pure.

(** [oslo.utils.units.Gi] *)
Definition Gi : Z := 1073741824.

(** [s.split(sep)] for a one-character [sep]. *)
Fixpoint split_on (sep : ascii) (s : string) : list string :=
  match s with
  | EmptyString => [EmptyString]
  | String c s' =>
      if Ascii.eqb c sep then EmptyString :: split_on sep s'
      else
        match split_on sep s' with
        | piece :: rest => String c piece :: rest
        | [] => [String c EmptyString]
        end
  end.

(** The operations on volumes invoked on [self._array]. *)
Inductive vcall : Type :=
| CreateVolume (name : string) (size : Z)
| CopyVolume (source dest : string)
| ExtendVolume (volume : string) (size : Z)
| CreateSnapshot (volume suffix : string).

Definition V (A : Type) : Type := M (list vcall) A.

Section Ops.

Variable array : list vcall -> vcall -> result json.

Definition ask (c : vcall) : V json :=
  fun h => (array h c, h ++ [c]).

Definition create_volume (v : volume) : V unit :=
  let vol_name := _get_vol_name v in
  let vol_size := (v_size v * Gi)%Z in
  ask (CreateVolume vol_name vol_size) ;;; ret tt.

Definition _extend_if_needed (vol_name : string) (src_size vol_size : Z)
  : V unit :=
  if (vol_size >? src_size)%Z then
    let vol_size := (vol_size * Gi)%Z in
    ask (ExtendVolume vol_name vol_size) ;;; ret tt
  else ret tt.

Definition create_volume_from_snapshot (v : volume) (s : snapshot) : V unit :=
  let vol_name := _get_vol_name v in
  let snap_name := _get_snap_name s in
  ask (CopyVolume snap_name vol_name) ;;;
  _extend_if_needed vol_name (s_volume_size s) (v_size v).

Definition create_cloned_volume (v src_vref : volume) : V unit :=
  let vol_name := _get_vol_name v in
  let src_name := _get_vol_name src_vref in
  ask (CopyVolume src_name vol_name) ;;;
  _extend_if_needed vol_name (v_size src_vref) (v_size v).

(** [vol_name, snap_suff = _get_snap_name(snapshot).split(".")]: the
    unpacking needs exactly two pieces. *)
Definition create_snapshot (s : snapshot) : V unit :=
  match split_on "."%char (_get_snap_name s) with
  | [vol_name; snap_suff] =>
      ask (CreateSnapshot vol_name snap_suff) ;;; ret tt
  | _ => raise (PyError "ValueError")
  end.

Definition extend_volume (v : volume) (new_size : Z) : V unit :=
  let vol_name := _get_vol_name v in
  let new_size := (new_size * Gi)%Z in
  ask (ExtendVolume vol_name new_size) ;;; ret tt.

End Ops.

End PureVolumeOps.

(** ** [pure.py]: the choice of the iSCSI target port *)

Module PureISCSIPorts.
Import Py PyNotations Pure.

(** [self._array.list_ports()] and the discovery command
    [self._run_iscsiadm_bare(["-m", "discovery", "-t", "sendtargets", "-p",
    portal])]. *)
Inductive pcall : Type :=
| ListPorts
| Discovery (portal : json).

(** [self._iscsi_port] ([JNull] is [None]) and the calls made so far. *)
Definition pstate : Type := (json * list pcall)%type.

Definition P (A : Type) : Type := M pstate A.

(** [except processutils.ProcessExecutionError]. *)
Definition is_process_execution_error (e : exn) : bool :=
  match e with
  | PyError cls => cls =? "ProcessExecutionError"
  | _ => false
  end.

Section Ports.

Variable env : list pcall -> pcall -> result json.

Definition ask (c : pcall) : P json :=
  fun w => (env (snd w) c, (fst w, snd w ++ [c])).

Definition get_iscsi_port : P json := fun w => (Return (fst w), w).

Definition set_iscsi_port (port : json) : P unit :=
  fun w => (Return tt, (port, snd w)).

(** [[port for port in ports if port["iqn"]]] *)
Fixpoint iscsi_enabled (ports : list json) : P (list json) :=
  match ports with
  | [] => ret []
  | port :: rest =>
      iqn <- getitem port "iqn" ;;
      rest <- iscsi_enabled rest ;;
      ret (if truthy iqn then port :: rest else rest)
  end.

(** The [for port in iscsi_ports] loop of [_choose_target_iscsi_port].
    The handler builds its log message from [self._iscsi_port], the [else]
    branch from [port]. *)
Fixpoint choose_loop (iscsi_ports : list json) : P json :=
  match iscsi_ports with
  | [] =>
      raise (PureDriverException
               "No reachable iSCSI-enabled ports on target array.")
  | port :: rest =>
      reached <-
        try_except
          (portal <- getitem port "portal" ;;
           ask (Discovery portal) ;;; ret true)
          (fun err =>
             if is_process_execution_error err then
               Some (current <- get_iscsi_port ;;
                     getitem current "name" ;;;
                     getitem current "portal" ;;;
                     ret false)
             else None) ;;
      if reached : bool then
        getitem port "name" ;;;
        getitem port "portal" ;;;
        ret port
      else choose_loop rest
  end.

Definition _choose_target_iscsi_port : P json :=
  ports <- ask ListPorts ;;
  ports <- iterate ports ;;
  iscsi_ports <- iscsi_enabled ports ;;
  choose_loop iscsi_ports.

Definition _get_target_iscsi_port : P json :=
  try_except
    (current <- get_iscsi_port ;;
     portal <- getitem current "portal" ;;
     ask (Discovery portal) ;;; ret tt)
    (fun err =>
       if is_process_execution_error err then
         Some (current <- get_iscsi_port ;;
               getitem current "name" ;;;
               getitem current "portal" ;;;
               port <- _choose_target_iscsi_port ;;
               set_iscsi_port port)
       else None) ;;;
  get_iscsi_port.

End Ports.

(** *** [initialize_connection]: the port, then the connection *)

Definition istate : Type := (pstate * list PureISCSIDriver.call)%type.

Definition I (A : Type) : Type := M istate A.

Definition on_ports {A} (m : P A) : I A :=
  fun w => (fst (m (fst w)), (snd (m (fst w)), snd w)).

Definition on_array {A} (m : PureISCSIDriver.D A) : I A :=
  fun w => (fst (m (snd w)), (fst w, snd (m (snd w)))).

Definition initialize_connection
  (env : list pcall -> pcall -> result json)
  (array : list PureISCSIDriver.call -> PureISCSIDriver.call -> result json)
  (v : volume) (c : connector) (u : N) : I json :=
  target_port <- on_ports (_get_target_iscsi_port env) ;;
  connection <- on_array (PureISCSIDriver._connect array v c u) ;;
  target_iqn <- getitem target_port "iqn" ;;
  target_portal <- getitem target_port "portal" ;;
  target_lun <- getitem connection "lun" ;;
  ret (JDict [ ("driver_volume_type", JStr "iscsi");
               ("data",
                JDict [ ("target_iqn", target_iqn);
                        ("target_portal", target_portal);
                        ("target_lun", target_lun);
                        ("target_discovered", JBool true);
                        ("access_mode", JStr "rw") ]) ]).

End PureISCSIPorts.

(** ** Vocabulary of the statements *)

Module Spec.
Import Py.

(** Every character of [s] satisfies [p]. *)
Fixpoint all_chars (p : ascii -> bool) (s : string) : bool :=
  match s with
  | EmptyString => true
  | String c s' => p c && all_chars p s'
  end.

(** A character of [[-a-zA-Z0-9]]. *)
Definition name_char (c : ascii) : bool :=
  negb (Re.atom_ok Pure.INVALID_CHARACTERS c).

(** A character of [[a-f0-9]]. *)
Definition hex_lower (c : ascii) : bool := Re.atom_ok Pure.HEX_LOWER c.

Definition starts_with (ch : ascii) (s : string) : bool :=
  match s with
  | String c _ => Ascii.eqb c ch
  | EmptyString => false
  end.

(** The text of the exception raised when renegotiation gives the version
    already in use; [text] is the body of the rejected reply. *)
Definition unusable_version_message (text : string) : string :=
  "Unable to find usable REST API version. "
  ++ "Response from Pure Storage REST API: " ++ text.

(** The calls a run started on history [h] has added to it. *)
Definition issued {C A} (h : list C) (out : result A * list C) : list C :=
  skipn (List.length h) (snd out).

(** The disconnect step lets [_disconnect_host] go on: the call returned,
    or failed with code 400 ("not connected"). *)
Definition disconnect_tolerated (r : result json) : bool :=
  match r with
  | Return _ => true
  | Raise (PureAPIException (Some c) _) => (c =? 400)%Z
  | _ => false
  end.

(** A connection record with a ["host"] entry. *)
Definition has_host (info : json) : bool :=
  match info with
  | JDict d => match assoc "host" d with Some _ => true | None => false end
  | _ => false
  end.

(** The record's ["host"] entry is the string [name]. *)
Definition host_is (name : string) (info : json) : bool :=
  match info with
  | JDict d =>
      match assoc "host" d with
      | Some h => eq_str h name
      | None => false
      end
  | _ => false
  end.

End Spec.

(** ** Concrete arrays on which the statements are exercised *)

Module Examples.
Import Py PyNotations.

(** *** A FlashArray endpoint at [https://array] *)

Import Pure.FlashArray.

Definition json_type : string := "application/json; charset=utf-8".

Definition session_v13 : self_t :=
  {| _target := "array"; _rest_version := Some "1.3";
     _root_url := "https://array/api/1.3/"; _api_token := Some "secret" |}.

Definition session_v12 : self_t :=
  {| _target := "array"; _rest_version := Some "1.2";
     _root_url := "https://array/api/1.2/"; _api_token := Some "secret" |}.

(** Logging in works, every other request is answered 401. *)
Definition always_expired (h : list request) (r : request) : response :=
  if url r =? "https://array/api/1.3/auth/session"
  then Response (Some json_type) "{}" (Some (JDict []))
  else HTTPError 401 "session expired".

(** The array advertises versions 1.0 to 1.2 and rejects every other
    request with 450. *)
Definition versions_reply : json :=
  JDict [("version", JList (map JStr ["1.0"; "1.2"; "1.1"]))].

Definition always_rejecting (h : list request) (r : request) : response :=
  if url r =? "https://array/api/api_version"
  then Response (Some json_type) "..." (Some versions_reply)
  else HTTPError 450 "unsupported version".

(** *** An array behind the Pure driver *)

Import Pure Pure.PureISCSIDriver.

Definition host7 : string := _generate_purity_host_name "compute1" 7.

Definition connections : list json :=
  [ JDict [("host", JStr "admin-host"); ("lun", JInt 1)];
    JDict [("host", JStr host7); ("lun", JInt 2)] ].

Definition lab (h : list call) (c : call) : result json :=
  match c with
  | ListHosts => Return (JList [])
  | CreateHost _ _ => Return (JDict [])
  | ConnectHost host _ =>
      if host =? host7
      then Raise (PureAPIException (Some 400%Z) "Connection already exists.")
      else Raise (PureAPIException (Some 400%Z) "Host does not exist.")
  | ListVolumeHosts v =>
      if (v =? "gone-cinder") || (v =? "busy-cinder")
      then Return (JList [])
      else Return (JList connections)
  | DisconnectHost _ _ =>
      Raise (PureAPIException (Some 400%Z) "Volume is not connected.")
  | ListHostConnections host _ =>
      if host =? host7 then Return (JList [])
      else Return (JList [JDict [("vol", JStr "data-cinder")]])
  | DeleteHost _ => Return JNull
  | DestroyVolume v =>
      if v =? "busy-cinder"
      then Raise (PureAPIException (Some 400%Z) "Volume has snapshots.")
      else Raise (PureAPIException (Some 400%Z) "Volume does not exist.")
  end.

Definition vol (name : string) : volume := {| v_name := name; v_size := 1 |}.

Definition snap : snapshot :=
  {| s_volume_name := "data"; s_name := "snap1"; s_volume_size := 1 |}.

Definition compute1 : connector :=
  {| c_host := "compute1"; c_initiator := "iqn.1993-08.org.debian:01:aa" |}.

(** *** A NetApp array and two protocol families *)

Import NetApp.

Definition IGROUP1 : igroup :=
  new_group "openstack-igroup1" "fcp" "linux" ["21000024ff406cc3"].

(** The group exists and the volume is mapped to it already. *)
Definition mapped_already : zapi :=
  fun h c =>
    match c as c0 return result (answer_of c0) with
    | GetIgroupByInitiators _ => Return [IGROUP1]
    | CreateIgroup _ _ _ => Return tt
    | AddIgroupInitiator _ _ => Return tt
    | MapLun _ _ _ => Raise (NaApiError "9016" "LUN already mapped")
    | UnmapLun _ _ => Return tt
    end.


Definition TARGETS : list string := ["T1"; "T2"; "T3"].

Definition fc_mapped : ProtocolFamily :=
  {| _find_mapped_lun_igroup :=
       fun _ _ => ret (Some "openstack-igroup1", Some "2");
     _get_fc_target_wwpns := ret TARGETS |}.

Definition fc_unmapped : ProtocolFamily :=
  {| _find_mapped_lun_igroup := fun _ _ => ret (None, None);
     _get_fc_target_wwpns := ret TARGETS |}.

Definition lun_table (name : string) : option lun_attr :=
  if name =? "fake_volume"
  then Some {| Path := "/vol/vol1/lun1"; OsType := "linux" |}
  else None.

(** A fabric in which A reaches T1 and B reaches T2 and T3, with the path
    counts [pa] and [pb]. *)
Definition fabric (pa pb : nat) (initiators targets : list string)
  : list fabric_entry :=
  [ {| fe_initiator := "A"; fe_targets := ["T1"]; fe_paths := pa |};
    {| fe_initiator := "B"; fe_targets := ["T2"; "T3"]; fe_paths := pb |} ].

End Examples.

(** ** Further vocabulary *)

Module MoreSpec.
Import Py Pure Pure.FlashArray.

(** [a] does not sort before [b]. *)
Definition not_below (a b : string) : Prop := String.ltb a b = false.

(** [version in FlashArray.SUPPORTED_REST_API_VERSIONS]. *)
Definition supported (version : string) : bool :=
  existsb (String.eqb version) SUPPORTED_REST_API_VERSIONS.

(** The highest version of [SUPPORTED_REST_API_VERSIONS] that the array
    offers. *)
Definition highest_supported (available : list string) : option string :=
  if existsb (String.eqb "1.3") available then Some "1.3"
  else if existsb (String.eqb "1.2") available then Some "1.2"
  else None.

Definition no_version_message : string :=
  "All REST API versions supported by this version of "
  ++ "the Pure Storage iSCSI driver are unavailable on "
  ++ "array.".

(** The root URL is the one of the negotiated version. *)
Definition consistent (o : self_t) : Prop :=
  match _rest_version o with
  | Some v => _root_url o = versioned_root (_target o) v
  | None => False
  end.

(** The object as [__init__] finds it: nothing assigned but the target. *)
Definition fresh (target : string) : self_t :=
  {| _target := target; _rest_version := None; _root_url := "";
     _api_token := None |}.

(** The request for the list of versions and the login request. *)
Definition probe_of (target : string) : request :=
  {| method := "GET"; url := bare_root target ++ "api_version";
     body := JNull |}.

Definition login_of (root token : string) : request :=
  {| method := "POST"; url := root ++ "auth/session";
     body := JDict [("api_token", JStr token)] |}.

(** A reply with a JSON body. *)
Definition json_reply (r : response) (v : json) : Prop :=
  exists ct content,
    r = Response (Some ct) content (Some v)
    /\ str_in "application/json" ct = true.

(** A host record as [list_hosts] gives it: a dict whose ["iqn"] entry is
    a list. *)
Definition host_record (host : json) : bool :=
  match host with
  | JDict d =>
      match assoc "iqn" d with
      | Some (JList _) => true
      | _ => false
      end
  | _ => false
  end.

(** The initiator is among the IQNs of the host record. *)
Definition lists_initiator (initiator : string) (host : json) : bool :=
  match host with
  | JDict d =>
      match assoc "iqn" d with
      | Some (JList l) => existsb (fun y => eq_str y initiator) l
      | _ => false
      end
  | _ => false
  end.

(** The ["name"] entry of a host record, when it is a string. *)
Definition name_of (host : json) : option string :=
  match host with
  | JDict d =>
      match assoc "name" d with
      | Some (JStr n) => Some n
      | _ => None
      end
  | _ => None
  end.

(** A call that disconnects a host, lists its connections or deletes
    it. *)
Definition host_call (c : PureISCSIDriver.call) : bool :=
  match c with
  | PureISCSIDriver.DisconnectHost _ _
  | PureISCSIDriver.ListHostConnections _ _
  | PureISCSIDriver.DeleteHost _ => true
  | _ => false
  end.

Definition no_connection_message : string :=
  "Unable to connect or find connection to host".

(** A port record as [list_ports] gives it: a dict with the entries
    ["iqn"], ["name"] and ["portal"]. *)
Definition port_record (port : json) : bool :=
  match port with
  | JDict d =>
      match assoc "iqn" d, assoc "name" d, assoc "portal" d with
      | Some _, Some _, Some _ => true
      | _, _, _ => false
      end
  | _ => false
  end.

(** The port is iSCSI-enabled: its ["iqn"] entry is true. *)
Definition iscsi_port (port : json) : bool :=
  match port with
  | JDict d =>
      match assoc "iqn" d with
      | Some iqn => truthy iqn
      | None => false
      end
  | _ => false
  end.

Definition entry (key : string) (v : json) : json :=
  match v with
  | JDict d =>
      match assoc key d with
      | Some x => x
      | None => JNull
      end
  | _ => JNull
  end.

Definition portal_of (port : json) : json := entry "portal" port.

(** The discovery command succeeds on the portals that [reachable] accepts
    and fails with [ProcessExecutionError] on the others, at any time. *)
Definition discovers (reachable : json -> bool)
  (env : list PureISCSIPorts.pcall -> PureISCSIPorts.pcall -> result json)
  : Prop :=
  forall h portal,
    env h (PureISCSIPorts.Discovery portal)
    = if reachable portal then Return JNull
      else Raise (PyError "ProcessExecutionError").

(** The discovery commands run on a list of ports that are tried in order
    until one is reachable. *)
Fixpoint tried (reachable : json -> bool) (ports : list json)
  : list PureISCSIPorts.pcall :=
  match ports with
  | [] => []
  | port :: rest =>
      PureISCSIPorts.Discovery (portal_of port)
      :: if reachable (portal_of port) then [] else tried reachable rest
  end.

Definition no_port_message : string :=
  "No reachable iSCSI-enabled ports on target array.".

(** The connection information that [initialize_connection] answers. *)
Definition iscsi_properties (target_iqn target_portal target_lun : json)
  : json :=
  JDict [ ("driver_volume_type", JStr "iscsi");
          ("data",
           JDict [ ("target_iqn", target_iqn);
                   ("target_portal", target_portal);
                   ("target_lun", target_lun);
                   ("target_discovered", JBool true);
                   ("access_mode", JStr "rw") ]) ].

(** A character that [.] matches: anything but a newline. *)
Definition no_newline (c : ascii) : bool := Re.atom_ok Re.Dot c.

(** A letter or a digit. *)
Definition alnum (c : ascii) : bool :=
  Spec.name_char c && negb (Ascii.eqb c dash).

(** [c in s] for a character. *)
Fixpoint has_char (ch : ascii) (s : string) : bool :=
  match s with
  | EmptyString => false
  | String c s' => Ascii.eqb c ch || has_char ch s'
  end.

(** The shape of the names that [GENERATED_NAME] matches: anything without
    a newline, ['-'], 32 hexadecimal digits in lower case, ["-cinder"], and
    nothing more but an optional final newline. *)
Definition generated_shape (s : string) : Prop :=
  exists p h tail,
    s = (p ++ "-" ++ h ++ "-cinder" ++ tail)%string
    /\ Spec.all_chars no_newline p = true
    /\ String.length h = 32
    /\ Spec.all_chars Spec.hex_lower h = true
    /\ (tail = "" \/ tail = String Re.newline "").

End MoreSpec.

(** ** Further arrays on which the statements are exercised *)

Module MoreExamples.
Import Py PyNotations Examples.

(** *** FlashArray endpoints *)

Import Pure.FlashArray.

Definition ok_reply : response :=
  Response (Some json_type) "{}" (Some (JDict [])).

Definition api_version_url : string := "https://array/api/api_version".

(** Offers versions 1.0 to 1.2 and answers everything. *)
Definition friendly (h : list request) (r : request) : response :=
  if url r =? api_version_url
  then Response (Some json_type) "..." (Some versions_reply)
  else ok_reply.

(** Offers versions 1.0 to 1.2 and rejects the requests made under
    version 1.3. *)
Definition downgraded (h : list request) (r : request) : response :=
  if url r =? api_version_url
  then Response (Some json_type) "..." (Some versions_reply)
  else if prefix "https://array/api/1.3/" (url r)
       then HTTPError 450 "unsupported version"
       else ok_reply.

(** Offers only versions that the driver does not know. *)
Definition outdated (h : list request) (r : request) : response :=
  Response (Some json_type) "..."
    (Some (JDict [("version", JList (map JStr ["1.0"; "1.1"]))])).

(** Rejects the first request with 450 and answers from then on. *)
Definition waking_up (h : list request) (r : request) : response :=
  match h with
  | [] => HTTPError 450 "not ready"
  | _ => Response (Some json_type) "..." (Some versions_reply)
  end.

(** Refuses everything with 401. *)
Definition locked_out (h : list request) (r : request) : response :=
  HTTPError 401 "invalid token".

(** Rejects everything with 450. *)
Definition hostile (h : list request) (r : request) : response :=
  HTTPError 450 "unsupported version".

(** *** Arrays behind the Pure driver *)

Import Pure Pure.PureISCSIDriver.

Definition admin_host : json :=
  JDict [ ("name", JStr "admin-host");
          ("iqn", JList [JStr "iqn.2000-01.com.example:other";
                         JStr (c_initiator compute1)]) ].

Definition other_host : json :=
  JDict [ ("name", JStr "db-host");
          ("iqn", JList [JStr "iqn.2000-01.com.example:db"]) ].

Definition connection5 (host : string) : json :=
  JDict [("host", JStr host); ("lun", JInt 5); ("vol", JStr "data-cinder")].

(** The initiator of [compute1] belongs to the second host listed;
    connecting works. *)
Definition known (h : list call) (c : call) : result json :=
  match c with
  | ListHosts => Return (JList [other_host; admin_host])
  | ConnectHost host _ => Return (connection5 host)
  | DisconnectHost _ _ => Return JNull
  | ListHostConnections _ _ => Return (JList [])
  | _ => Return JNull
  end.

(** No host lists the initiator of [compute1]; creating and connecting
    work. *)
Definition unknown (h : list call) (c : call) : result json :=
  match c with
  | ListHosts => Return (JList [other_host])
  | ConnectHost host _ => Return (connection5 host)
  | _ => Return JNull
  end.

(** *** An array for the volume operations *)

Import PureVolumeOps.

Definition obliging (h : list vcall) (c : vcall) : result json :=
  Return JNull.

(** *** Ports *)

Import PureISCSIPorts.

Definition port (name : string) (iqn : json) (portal : string) : json :=
  JDict [("name", JStr name); ("iqn", iqn); ("portal", JStr portal)].

Definition fc_port : json := port "CT0.FC0" JNull "".

Definition port_a : json :=
  port "CT0.ETH0" (JStr "iqn.2010-06.com.purestorage:a") "10.0.0.1:3260".

Definition port_b : json :=
  port "CT1.ETH0" (JStr "iqn.2010-06.com.purestorage:b") "10.0.0.2:3260".

(** Only the portal of [port_b] answers. *)
Definition only_b (portal : json) : bool := eq_str portal "10.0.0.2:3260".

(** No portal answers. *)
Definition none_reachable (portal : json) : bool := false.

Definition network (reachable : json -> bool) (h : list pcall) (c : pcall)
  : result json :=
  match c with
  | ListPorts => Return (JList [fc_port; port_a; port_b])
  | Discovery portal =>
      if reachable portal then Return JNull
      else Raise (PyError "ProcessExecutionError")
  end.

End MoreExamples.

(** ** The generated host name, as it is described

    The description of the names that [_generate_purity_host_name] returns,
    written on characters and positions: it uses neither the matcher [Re]
    nor the string operations [Py] that stand for the code. *)

Module NameSpec.

(** A character of [[-a-zA-Z0-9]], by its ASCII code. *)
Definition valid (c : ascii) : bool :=
  let n := N_of_ascii c in
  ((n =? 45) || ((48 <=? n) && (n <=? 57)) || ((65 <=? n) && (n <=? 90))
   || ((97 <=? n) && (n <=? 122)))%N.

(** A lowercase hexadecimal digit, by its ASCII code. *)
Definition lower_hex (c : ascii) : bool :=
  let n := N_of_ascii c in
  (((48 <=? n) && (n <=? 57)) || ((97 <=? n) && (n <=? 102)))%N.

(** What becomes of one character of the input: a character outside
    [[-a-zA-Z0-9]] is replaced by ['-']. *)
Definition replaced (c : ascii) : ascii := if valid c then c else "-"%char.

Fixpoint drop_leading (ch : ascii) (l : list ascii) : list ascii :=
  match l with
  | c :: l' => if Ascii.eqb c ch then drop_leading ch l' else l
  | [] => []
  end.

(** The input truncated to at most 23 characters, with every character
    outside [[-a-zA-Z0-9]] replaced by ['-'] and the leading ['-']
    stripped. *)
Definition prefix (name : string) : string :=
  string_of_list_ascii
    (drop_leading "-"
       (map replaced (firstn 23 (list_ascii_of_string name)))).

(** The same, position by position: [p] is what is left of the first
    [min 23 (len name)] characters of [name] once the first [k] of them,
    each a ['-'] after replacement, are gone; the character of [p] at
    position [i] is the replacement of the character of [name] at position
    [k + i]; and [p] does not begin with ['-']. *)
Definition describes (name p : string) : Prop :=
  exists k : nat,
    k + String.length p = Nat.min 23 (String.length name)
    /\ (forall i c, i < k -> String.get i name = Some c ->
                    replaced c = "-"%char)
    /\ (forall i c, i < String.length p ->
                    String.get (k + i) name = Some c ->
                    String.get i p = Some (replaced c))
    /\ String.get 0 p <> Some "-"%char.

End NameSpec.

(* ================================================================== *)
(** * Part II.  Properties *)
(* ================================================================== *)

(** ** Strings and the regular-expression matcher *)

Module StringFacts.
Import Py Spec.

Lemma length_append (s t : string) :
  String.length (s ++ t) = String.length s + String.length t.
Proof.
  induction s as [|c s IH]; simpl; [reflexivity | now rewrite IH].
Qed.

Lemma all_chars_append p (s t : string) :
  all_chars p (s ++ t) = all_chars p s && all_chars p t.
Proof.
  induction s as [|c s IH]; simpl; [reflexivity|].
  now rewrite IH, andb_assoc.
Qed.

Lemma all_chars_impl (p q : ascii -> bool) (s : string) :
  (forall c, p c = true -> q c = true) ->
  all_chars p s = true -> all_chars q s = true.
Proof.
  intros Hpq. induction s as [|c s IH]; simpl; [reflexivity|].
  intros H. apply andb_true_iff in H as [Hc Hs].
  now rewrite (Hpq _ Hc), IH.
Qed.

Lemma substring_0_all (n : nat) (s : string) :
  String.length s <= n -> substring 0 n s = s.
Proof.
  revert n. induction s as [|c s IH]; intros [|n] H; simpl in *;
    try reflexivity; try lia.
  now rewrite IH by lia.
Qed.

Lemma length_substring_0 (n : nat) (s : string) :
  String.length (substring 0 n s) <= n.
Proof.
  revert n. induction s as [|c s IH]; intros [|n]; simpl; try lia.
  specialize (IH n). lia.
Qed.

Lemma length_sub1 a r (s : string) :
  String.length (Re.sub1 a r s) = String.length s.
Proof.
  induction s as [|c s IH]; simpl; [reflexivity | now rewrite IH].
Qed.

Lemma length_lstrip ch (s : string) :
  String.length (lstrip ch s) <= String.length s.
Proof.
  induction s as [|c s IH]; simpl; [lia|].
  destruct (Ascii.eqb c ch); simpl; lia.
Qed.

Lemma all_chars_lstrip p ch (s : string) :
  all_chars p s = true -> all_chars p (lstrip ch s) = true.
Proof.
  induction s as [|c s IH]; simpl; [reflexivity|].
  intros H. destruct (Ascii.eqb c ch); [|exact H].
  apply andb_true_iff in H as [_ Hs]. now apply IH.
Qed.

Lemma lstrip_starts_with ch (s : string) :
  starts_with ch (lstrip ch s) = false.
Proof.
  induction s as [|c s IH]; simpl; [reflexivity|].
  destruct (Ascii.eqb c ch) eqn:E; [exact IH | simpl; exact E].
Qed.

Lemma sub1_name_chars (s : string) :
  all_chars name_char (Re.sub1 Pure.INVALID_CHARACTERS Pure.dash s) = true.
Proof.
  induction s as [|c s IH]; cbn [Re.sub1 all_chars]; [reflexivity|].
  rewrite IH, andb_true_r.
  destruct (Re.atom_ok Pure.INVALID_CHARACTERS c) eqn:E.
  - reflexivity.
  - unfold name_char. now rewrite E.
Qed.

Lemma name_char_not_newline (c : ascii) :
  name_char c = true -> Re.atom_ok Re.Dot c = true.
Proof.
  destruct c as [[] [] [] [] [] [] [] []]; vm_compute;
    intros H; first [reflexivity | exact H].
Qed.

Lemma hex_digit_lower (n : N) : (n < 16)%N -> hex_lower (hex_digit n) = true.
Proof.
  intros H.
  assert (E : In n [0; 1; 2; 3; 4; 5; 6; 7; 8; 9; 10; 11; 12; 13; 14; 15]%N).
  { simpl. lia. }
  simpl in E.
  repeat (destruct E as [E | E]; [subst n; reflexivity|]).
  contradiction.
Qed.

Lemma length_hex_digits (k : nat) (u : N) :
  String.length (hex_digits k u) = k.
Proof.
  revert u. induction k as [|k IH]; intros u; simpl; [reflexivity|].
  rewrite length_append, IH. simpl. lia.
Qed.

Lemma hex_digits_lower (k : nat) (u : N) :
  all_chars hex_lower (hex_digits k u) = true.
Proof.
  revert u. induction k as [|k IH]; intros u; simpl; [reflexivity|].
  rewrite all_chars_append, IH. simpl.
  rewrite hex_digit_lower; [reflexivity|].
  apply N.mod_lt. discriminate.
Qed.

Lemma star_match_skip a k (s : string) :
  k s = true -> Re.star_match a k s = true.
Proof.
  intros H. destruct s as [|c s]; simpl; [exact H|].
  rewrite H. apply orb_true_r.
Qed.

Lemma star_match_append a k (p s : string) :
  all_chars (Re.atom_ok a) p = true -> k s = true ->
  Re.star_match a k (p ++ s) = true.
Proof.
  intros Hp Hk. induction p as [|c p IH]; simpl in *.
  - now apply star_match_skip.
  - apply andb_true_iff in Hp as [Hc Hp].
    now rewrite Hc, (IH Hp).
Qed.

Lemma rep_match_append a k (h s : string) :
  all_chars (Re.atom_ok a) h = true ->
  Re.rep_match (String.length h) a k (h ++ s) = k s.
Proof.
  intros Hh. induction h as [|c h IH]; simpl in *; [reflexivity|].
  apply andb_true_iff in Hh as [Hc Hh].
  now rewrite Hc, (IH Hh).
Qed.

End StringFacts.

(** ** Host names of the Pure driver *)

Module PureNames.
Import Py Spec StringFacts Pure.

Lemma truncate_is_substring (name : string) :
  (if (23 <? String.length name)%nat then substring 0 23 name else name)
  = substring 0 23 name.
Proof.
  destruct (Nat.ltb_spec 23 (String.length name)) as [H | H];
    [reflexivity|].
  symmetry. now apply substring_0_all.
Qed.

(** *** The code against the description *)

Lemma invalid_is_not_valid (c : ascii) :
  Re.atom_ok INVALID_CHARACTERS c = negb (NameSpec.valid c).
Proof. destruct c as [[] [] [] [] [] [] [] []]; reflexivity. Qed.

Lemma name_char_is_valid (c : ascii) : name_char c = NameSpec.valid c.
Proof.
  unfold name_char. rewrite invalid_is_not_valid. apply negb_involutive.
Qed.

Lemma hex_lower_is_lower_hex (c : ascii) : hex_lower c = NameSpec.lower_hex c.
Proof. destruct c as [[] [] [] [] [] [] [] []]; reflexivity. Qed.

Lemma all_chars_ext (p q : ascii -> bool) (s : string) :
  (forall c, p c = q c) -> all_chars p s = all_chars q s.
Proof.
  intros E. induction s as [|c s IH]; simpl; [reflexivity|].
  now rewrite E, IH.
Qed.

Lemma chars_of_substring (n : nat) (s : string) :
  list_ascii_of_string (substring 0 n s) = firstn n (list_ascii_of_string s).
Proof.
  revert n. induction s as [|c s IH]; intros [|n]; simpl; try reflexivity.
  now rewrite IH.
Qed.

Lemma chars_of_sub1 (s : string) :
  list_ascii_of_string (Re.sub1 INVALID_CHARACTERS dash s)
  = map NameSpec.replaced (list_ascii_of_string s).
Proof.
  induction s as [|c s IH]; cbn [Re.sub1 list_ascii_of_string map];
    [reflexivity|].
  rewrite IH, invalid_is_not_valid. unfold NameSpec.replaced.
  now destruct (NameSpec.valid c).
Qed.

Lemma chars_of_lstrip (ch : ascii) (s : string) :
  list_ascii_of_string (lstrip ch s)
  = NameSpec.drop_leading ch (list_ascii_of_string s).
Proof.
  induction s as [|c s IH]; simpl; [reflexivity|].
  now destruct (Ascii.eqb c ch).
Qed.

(** The three steps of the code give the described prefix. *)
Lemma code_prefix_is_described (name : string) :
  lstrip dash (Re.sub1 INVALID_CHARACTERS dash (substring 0 23 name))
  = NameSpec.prefix name.
Proof.
  unfold NameSpec.prefix.
  rewrite <- chars_of_substring, <- chars_of_sub1.
  change "-"%char with dash.
  rewrite <- chars_of_lstrip. symmetry. apply string_of_list_ascii_of_string.
Qed.

Lemma get_is_nth_error (i : nat) (s : string) :
  String.get i s = nth_error (list_ascii_of_string s) i.
Proof.
  revert i. induction s as [|c s IH]; intros [|i]; simpl; try reflexivity.
  apply IH.
Qed.

Lemma length_chars (s : string) :
  List.length (list_ascii_of_string s) = String.length s.
Proof. induction s as [|c s IH]; simpl; [reflexivity | now rewrite IH]. Qed.

(** Stripping removes a run of [k] leading characters, all equal to [ch],
    and stops before a character that differs. *)
Lemma drop_leading_skipn (ch : ascii) (l : list ascii) :
  exists k,
    k <= List.length l
    /\ NameSpec.drop_leading ch l = skipn k l
    /\ (forall i c, i < k -> nth_error l i = Some c -> c = ch)
    /\ nth_error (skipn k l) 0 <> Some ch.
Proof.
  induction l as [|c l IH].
  - exists 0. simpl. repeat split; [lia | intros; lia | discriminate].
  - simpl. destruct (Ascii.eqb c ch) eqn:E.
    + apply Ascii.eqb_eq in E. subst c.
      destruct IH as (k & Hk & Hd & Hrun & Hstop).
      exists (S k). simpl. repeat split; [lia | exact Hd | | exact Hstop].
      intros [|i] c Hi Hc; simpl in Hc.
      * now inversion Hc.
      * apply (Hrun i); [lia | exact Hc].
    + exists 0. simpl. repeat split; [lia | intros; lia |].
      intros H. inversion H. subst c. now rewrite Ascii.eqb_refl in E.
Qed.

Lemma nth_error_skipn_add {A} (k i : nat) (l : list A) :
  nth_error (skipn k l) i = nth_error l (k + i).
Proof.
  revert l. induction k as [|k IH]; intros [|a l]; simpl;
    try reflexivity.
  - now destruct i.
  - apply IH.
Qed.

Lemma nth_error_firstn_lt {A} (n i : nat) (l : list A) :
  i < n -> nth_error (firstn n l) i = nth_error l i.
Proof.
  revert i l. induction n as [|n IH]; intros i l Hi; [lia|].
  destruct l as [|a l]; [reflexivity|].
  destruct i as [|i]; simpl; [reflexivity|]. apply IH. lia.
Qed.

(** The described prefix meets the description position by position. *)
Lemma prefix_is_described (name : string) :
  NameSpec.describes name (NameSpec.prefix name).
Proof.
  unfold NameSpec.describes, NameSpec.prefix.
  set (l := list_ascii_of_string name).
  set (r := map NameSpec.replaced (firstn 23 l)).
  destruct (drop_leading_skipn "-"%char r) as (k & Hk & Hd & Hrun & Hstop).
  assert (Hr : List.length r = Nat.min 23 (String.length name)).
  { unfold r. rewrite length_map, length_firstn. unfold l.
    now rewrite length_chars. }
  assert (Hlen : String.length (string_of_list_ascii (skipn k r))
                 = List.length r - k).
  { rewrite <- length_chars, list_ascii_of_string_of_list_ascii.
    apply length_skipn. }
  assert (Hget : forall i c, i < Nat.min 23 (String.length name) ->
                 String.get i name = Some c ->
                 nth_error r i = Some (NameSpec.replaced c)).
  { intros i c Hi Hc. unfold r. rewrite nth_error_map.
    rewrite nth_error_firstn_lt by lia.
    unfold l. now rewrite <- get_is_nth_error, Hc. }
  rewrite Hd. exists k. rewrite Hlen. repeat split.
  - lia.
  - intros i c Hi Hc. apply (Hrun i); [exact Hi|].
    apply Hget; [lia | exact Hc].
  - intros i c Hi Hc.
    rewrite get_is_nth_error, list_ascii_of_string_of_list_ascii.
    rewrite nth_error_skipn_add. apply Hget; [lia | exact Hc].
  - rewrite get_is_nth_error, list_ascii_of_string_of_list_ascii.
    exact Hstop.
Qed.

(** C9.  For every input string and every UUID drawn,
    [_generate_purity_host_name] answers [p ++ "-" ++ h ++ "-cinder"].
    Here [p] is the input truncated to at most 23 characters, with every
    character outside [[-a-zA-Z0-9]] replaced by ['-'] and the leading ['-']
    stripped: position by position, [p] is the replacement of the first
    [min 23 (len name)] characters of the input without the leading run of
    characters that became ['-']; so [p] has at most 23 characters, all of
    them in [[-a-zA-Z0-9]], and does not begin with ['-'].  [h] is 32
    lowercase hexadecimal digits.  And the answer matches [GENERATED_NAME],
    the pattern by which [_disconnect_host] decides that a host may be
    deleted. *)
Theorem generated_host_name_matches (name : string) (u : N) :
  let p := NameSpec.prefix name in
  let h := uuid_hex u in
  _generate_purity_host_name name u = (p ++ "-" ++ h ++ "-cinder")%string
  /\ NameSpec.describes name p
  /\ String.length p <= 23
  /\ all_chars NameSpec.valid p = true
  /\ starts_with "-" p = false
  /\ String.length h = 32
  /\ all_chars NameSpec.lower_hex h = true
  /\ Re.re_match GENERATED_NAME (_generate_purity_host_name name u) = true.
Proof.
  intros p h.
  assert (Hshape :
    _generate_purity_host_name name u = (p ++ "-" ++ h ++ "-cinder")%string).
  { unfold _generate_purity_host_name, p.
    now rewrite truncate_is_substring, code_prefix_is_described. }
  assert (Hp : all_chars name_char p = true).
  { unfold p. rewrite <- code_prefix_is_described.
    apply all_chars_lstrip, sub1_name_chars. }
  assert (Hh : all_chars hex_lower h = true) by apply hex_digits_lower.
  assert (Hlen : String.length h = 32) by apply length_hex_digits.
  split; [exact Hshape|]. split; [apply prefix_is_described|].
  split; [|split; [|split; [|split; [exact Hlen|split]]]].
  - unfold p. rewrite <- code_prefix_is_described.
    pose proof (length_lstrip dash
      (Re.sub1 INVALID_CHARACTERS dash (substring 0 23 name))) as H1.
    rewrite length_sub1 in H1.
    pose proof (length_substring_0 23 name). lia.
  - rewrite <- (all_chars_ext name_char) by apply name_char_is_valid.
    exact Hp.
  - unfold p. rewrite <- code_prefix_is_described.
    apply (lstrip_starts_with dash).
  - rewrite <- (all_chars_ext hex_lower) by apply hex_lower_is_lower_hex.
    exact Hh.
  - rewrite Hshape. unfold Re.re_match, GENERATED_NAME.
    cbn [Re.match_here].
    apply star_match_append.
    + apply (all_chars_impl name_char);
        [apply name_char_not_newline | exact Hp].
    + change ("-" ++ h ++ "-cinder")%string
        with (String dash (h ++ "-cinder")).
      cbn [Re.match_here].
      change (Re.atom_ok (Re.Lit dash) dash) with true. cbn [andb].
      rewrite <- Hlen at 1.
      rewrite rep_match_append by exact Hh.
      reflexivity.
Qed.

End PureNames.

(** ** Error handling and host cleanup of the Pure driver *)

Module PureDriverFacts.
Import Py PyNotations Spec Pure Pure.PureISCSIDriver.

Lemma skipn_history {C} (h l : list C) : skipn (List.length h) (h ++ l) = l.
Proof. induction h as [|c h IH]; simpl; [reflexivity | exact IH]. Qed.

Lemma issued_app {C A} (h l : list C) (r : result A) :
  issued h (r, h ++ l) = l.
Proof. unfold issued. simpl. apply skipn_history. Qed.

Ltac run :=
  cbv beta iota zeta delta
    [bind try_except ask ret raise save_and_reraise_exception kwargs_code
     fst snd].

(** The [try ... except] around the disconnect call: what it answers once
    the call is tolerated. *)
Lemma disconnect_step_tolerated array h host vol :
  disconnect_tolerated (array h (DisconnectHost host vol)) = true ->
  try_except
    (ask array (DisconnectHost host vol) ;;; ret tt)
    (fun err =>
       match err with
       | PureAPIException code msg =>
           Some (save_and_reraise_exception err
                   (c <- kwargs_code code ;;
                    if (c =? 400)%Z then ret (false, tt) else ret (true, tt)))
       | _ => None
       end) h
  = (Return tt, h ++ [DisconnectHost host vol]).
Proof.
  intros H. run.
  destruct (array h (DisconnectHost host vol)) as [a | e |]; simpl in H;
    try discriminate; [reflexivity|].
  destruct e as [[c|] msg | | | | |]; try discriminate.
  now rewrite H.
Qed.

(** When the disconnect is not tolerated its exception leaves
    [_disconnect_host] at once. *)
Lemma disconnect_step_fatal array h host vol :
  disconnect_tolerated (array h (DisconnectHost host vol)) = false ->
  snd (_disconnect_host array host vol h) = h ++ [DisconnectHost host vol].
Proof.
  intros H. unfold _disconnect_host. run.
  destruct (array h (DisconnectHost host vol)) as [a | e |]; simpl in H;
    try discriminate; try reflexivity.
  destruct e as [[c|] msg | | | | |]; try reflexivity.
  now rewrite H.
Qed.

(** What [_disconnect_host] does after a tolerated disconnect. *)
Lemma disconnect_host_run array h host vol :
  disconnect_tolerated (array h (DisconnectHost host vol)) = true ->
  let h1 := h ++ [DisconnectHost host vol] in
  let h2 := h1 ++ [ListHostConnections host true] in
  _disconnect_host array host vol h =
  if Re.re_match GENERATED_NAME host then
    match array h1 (ListHostConnections host true) with
    | Return connections =>
        if truthy connections then (Return tt, h2)
        else
          match array h2 (DeleteHost host) with
          | Return _ => (Return tt, h2 ++ [DeleteHost host])
          | Raise e => (Raise e, h2 ++ [DeleteHost host])
          | OutOfFuel => (OutOfFuel, h2 ++ [DeleteHost host])
          end
    | Raise e => (Raise e, h2)
    | OutOfFuel => (OutOfFuel, h2)
    end
  else (Return tt, h1).
Proof.
  intros H h1 h2. unfold _disconnect_host.
  unfold bind at 1. rewrite (disconnect_step_tolerated _ _ _ _ H).
  fold h1. destruct (Re.re_match GENERATED_NAME host); [|reflexivity].
  run. fold h2.
  destruct (array h1 (ListHostConnections host true)) as [conns | e |];
    try reflexivity.
  destruct (truthy conns); simpl; [reflexivity|].
  destruct (array h2 (DeleteHost host)); reflexivity.
Qed.

Lemma not_in_two host vol :
  ~ In (DeleteHost host)
       [DisconnectHost host vol; ListHostConnections host true].
Proof. intros [H | [H | []]]; discriminate. Qed.

(** C7.  Once the disconnect call has returned or failed with the tolerated
    code 400, [_disconnect_host] issues [delete_host] for the host if and
    only if the host name matches [GENERATED_NAME] and the listing of the
    host's private connections comes back empty.  In every run, a host whose
    name does not match the pattern is not deleted, and neither is a host
    whose listing still shows connections. *)
Theorem disconnect_host_deletes_iff array h host vol :
  let out := _disconnect_host array host vol h in
  let h1 := h ++ [DisconnectHost host vol] in
  (disconnect_tolerated (array h (DisconnectHost host vol)) = true ->
   (In (DeleteHost host) (issued h out) <->
    Re.re_match GENERATED_NAME host = true /\
    exists connections,
      array h1 (ListHostConnections host true) = Return connections /\
      truthy connections = false))
  /\ (Re.re_match GENERATED_NAME host = false ->
      ~ In (DeleteHost host) (issued h out))
  /\ (forall connections,
        array h1 (ListHostConnections host true) = Return connections ->
        truthy connections = true ->
        ~ In (DeleteHost host) (issued h out)).
Proof.
  intros out h1.
  assert (Hfatal :
    disconnect_tolerated (array h (DisconnectHost host vol)) = false ->
    ~ In (DeleteHost host) (issued h out)).
  { intros H. unfold issued, out.
    rewrite (disconnect_step_fatal _ _ _ _ H), skipn_history.
    intros [E | []]. discriminate. }
  assert (Hrun :
    disconnect_tolerated (array h (DisconnectHost host vol)) = true ->
    (In (DeleteHost host) (issued h out) <->
     Re.re_match GENERATED_NAME host = true /\
     exists connections,
       array h1 (ListHostConnections host true) = Return connections /\
       truthy connections = false)).
  { intros H. unfold out. rewrite (disconnect_host_run _ _ _ _ H). fold h1.
    destruct (Re.re_match GENERATED_NAME host).
    - destruct (array h1 (ListHostConnections host true))
        as [conns | e |] eqn:E.
      + destruct (truthy conns) eqn:T.
        * unfold h1. rewrite <- app_assoc, issued_app. split.
          -- intros HIn. now apply not_in_two in HIn.
          -- intros [_ (c' & Hc & Ht)]. congruence.
        * assert (HIn : In (DeleteHost host)
                          [DisconnectHost host vol;
                           ListHostConnections host true;
                           DeleteHost host])
            by (simpl; auto).
          split; [intros _; split; [reflexivity | now exists conns]|].
          intros _.
          destruct (array _ (DeleteHost host)); unfold h1;
            rewrite <- !app_assoc, issued_app; exact HIn.
      + unfold h1. rewrite <- app_assoc, issued_app. split.
        * intros HIn. now apply not_in_two in HIn.
        * intros [_ (c' & Hc & _)]. discriminate.
      + unfold h1. rewrite <- app_assoc, issued_app. split.
        * intros HIn. now apply not_in_two in HIn.
        * intros [_ (c' & Hc & _)]. discriminate.
    - unfold h1. rewrite issued_app. split.
      + intros [E | []]. discriminate.
      + intros [E _]. discriminate. }
  split; [exact Hrun|]. split.
  - intros Hm.
    destruct (disconnect_tolerated (array h (DisconnectHost host vol)))
      eqn:T; [|now apply Hfatal].
    intros HIn. apply (Hrun eq_refl) in HIn as [E _]. congruence.
  - intros conns Hc Ht.
    destruct (disconnect_tolerated (array h (DisconnectHost host vol)))
      eqn:T; [|now apply Hfatal].
    intros HIn. apply (Hrun eq_refl) in HIn as [_ (c' & Hc' & Ht')].
    congruence.
Qed.

(** C10.  [delete_snapshot] returns normally whenever the destroy call fails
    with a [PureAPIException] of code 400, whatever its message, and
    re-raises the exception when the code is different.  [delete_volume],
    whose destroy call fails in the same way, returns normally only when the
    code is 400 and the message contains "Volume does not exist"; every
    other exception, code 400 included, is re-raised; the same holds for a
    [PureAPIException] raised anywhere in its [try] block. *)
Theorem destroy_failure_handling array :
  (forall s h c msg,
     array h (DestroyVolume (_get_snap_name s))
       = Raise (PureAPIException (Some c) msg) ->
     delete_snapshot array s h
       = (if (c =? 400)%Z then Return tt
          else Raise (PureAPIException (Some c) msg),
          h ++ [DestroyVolume (_get_snap_name s)]))
  /\ (forall v h hosts items h1 c msg,
        array h (ListVolumeHosts (_get_vol_name v)) = Return hosts ->
        iter_items hosts = Some items ->
        disconnect_all array items (_get_vol_name v)
          (h ++ [ListVolumeHosts (_get_vol_name v)]) = (Return tt, h1) ->
        array h1 (DestroyVolume (_get_vol_name v))
          = Raise (PureAPIException (Some c) msg) ->
        delete_volume array v h
          = (if (c =? 400)%Z && str_in "Volume does not exist" msg
             then Return tt
             else Raise (PureAPIException (Some c) msg),
             h1 ++ [DestroyVolume (_get_vol_name v)]))
  /\ (forall v h h' c msg,
        delete_volume_body array (_get_vol_name v) h
          = (Raise (PureAPIException (Some c) msg), h') ->
        delete_volume array v h
          = (if (c =? 400)%Z && str_in "Volume does not exist" msg
             then Return tt
             else Raise (PureAPIException (Some c) msg),
             h')).
Proof.
  assert (Hbody : forall v h h' c msg,
    delete_volume_body array (_get_vol_name v) h
      = (Raise (PureAPIException (Some c) msg), h') ->
    delete_volume array v h
      = (if (c =? 400)%Z && str_in "Volume does not exist" msg
         then Return tt
         else Raise (PureAPIException (Some c) msg),
         h')).
  { intros v h h' c msg H. unfold delete_volume.
    cbv beta iota zeta delta [try_except]. rewrite H. run.
    now destruct ((c =? 400)%Z && str_in "Volume does not exist" msg). }
  split; [|split; [|exact Hbody]].
  - intros s h c msg H. unfold delete_snapshot. run. rewrite H.
    now destruct (c =? 400)%Z.
  - intros v h hosts items h1 c msg Hl Hi Hd Hx.
    apply Hbody. unfold delete_volume_body, iterate. run.
    rewrite Hl, Hi, Hd. now rewrite Hx.
Qed.

Lemma find_connection_find host_name infos (h : list call) :
  forallb has_host infos = true ->
  find_connection host_name infos h
  = (Return match find (host_is host_name) infos with
            | Some info => info
            | None => JNull
            end, h).
Proof.
  induction infos as [|info infos IH]; simpl; intros H; [reflexivity|].
  apply andb_true_iff in H as [Hi Hs].
  destruct info as [| | | | |d]; try discriminate. simpl in *.
  unfold bind, getitem.
  destruct (assoc "host" d) as [x|]; [|discriminate].
  unfold ret. destruct (eq_str x host_name); [reflexivity | now apply IH].
Qed.

Lemma host_is_truthy host_name info :
  host_is host_name info = true -> truthy info = true.
Proof.
  destruct info as [| | | | |d]; try discriminate.
  destruct d as [|kv d]; [discriminate | reflexivity].
Qed.

(** C8.  When the connect call fails with code 400 and a message containing
    "Connection already exists", [_connect] lists the hosts connected to the
    volume and answers the first record whose ["host"] entry is the host
    name; when no record has that name it raises [PureDriverException]
    ("Unable to connect or find connection to host"), not the
    [PureAPIException] of the conflict. *)
Theorem connect_conflict_recovery array v c u h host_name h1 msg infos :
  let vol_name := _get_vol_name v in
  let h2 := h1 ++ [ConnectHost host_name vol_name] in
  _connect_host_name array c u h = (Return host_name, h1) ->
  array h1 (ConnectHost host_name vol_name)
    = Raise (PureAPIException (Some 400%Z) msg) ->
  str_in "Connection already exists" msg = true ->
  array h2 (ListVolumeHosts vol_name) = Return (JList infos) ->
  forallb has_host infos = true ->
  _connect array v c u h
  = (match find (host_is host_name) infos with
     | Some info => Return info
     | None =>
         Raise (PureDriverException
                  "Unable to connect or find connection to host")
     end, h2 ++ [ListVolumeHosts vol_name]).
Proof.
  intros vol_name h2 Hn Hc Hm Hl Hw. unfold _connect. fold vol_name.
  unfold bind at 1. rewrite Hn.
  unfold iterate. run. rewrite Hc. fold h2.
  change (400 =? 400)%Z with true. rewrite Hm. cbn [andb].
  rewrite Hl. cbn [iter_items].
  rewrite (find_connection_find _ _ _ Hw).
  destruct (find (host_is host_name) infos) as [info|] eqn:F.
  - apply find_some in F as [_ F].
    now rewrite (host_is_truthy _ _ F).
  - reflexivity.
Qed.

End PureDriverFacts.

(** ** The REST client: re-authentication and version renegotiation *)

Module FlashArrayFacts.
Import Py PyNotations Spec Pure Pure.FlashArray.

Ltac run :=
  cbv beta iota zeta delta
    [bind ret raise get_self modify_self attr open getitem version_list
     _start_session _start_session_with _choose_rest_version
     _choose_rest_version_with fst snd].

(** One level of the recursion. *)
Lemma http_request_S opener fuel method path data reestablish_session :
  _http_request opener (S fuel) method path data reestablish_session
  = (o <- get_self ;;
     resp <- open opener {| method := method; url := _root_url o ++ path;
                            body := data |} ;;
     match resp with
     | HTTPError code text =>
         if reestablish_session && (code =? 401)%Z then
           _start_session opener fuel ;;;
           _http_request opener fuel method path data false
         else if (code =? 450)%Z then
           new_version <- _choose_rest_version opener fuel ;;
           o <- get_self ;;
           current <- attr (_rest_version o) ;;
           if new_version =? current then
             raise (PureAPIException (Some code)
                      (unusable_version_message text))
           else
             modify_self (set_rest_version new_version) ;;;
             modify_self (set_root_url
                            (versioned_root (_target o) new_version)) ;;;
             _http_request opener fuel method path data true
         else
           raise (PureAPIException (Some code) text)
     | URLError =>
         raise (PureDriverException
                  ("Unable to connect to '" ++ _target o
                   ++ "'. Check san_ip."))
     | Response content_type content loads =>
         match content_type with
         | None => raise (PyError "TypeError")
         | Some ct =>
             if str_in "application/json" ct then
               match loads with
               | Some v => ret v
               | None => raise (PyError "ValueError")
               end
             else
               raise (PureAPIException None
                        ("Response not in JSON: " ++ content))
         end
     end).
Proof. reflexivity. Qed.

(** A request answered with JSON returns the decoded value after that one
    request. *)
Lemma http_request_json opener fuel method path data r o h ct content v :
  opener h {| method := method; url := _root_url o ++ path; body := data |}
    = Response (Some ct) content (Some v) ->
  str_in "application/json" ct = true ->
  _http_request opener (S fuel) method path data r (o, h)
  = (Return v,
     (o, h ++ [{| method := method; url := _root_url o ++ path;
                  body := data |}])).
Proof.
  intros H Hct. rewrite http_request_S. run. rewrite H, Hct. reflexivity.
Qed.

(** A request answered with an error status other than the two that are
    retried raises that status and text after that one request. *)
Lemma http_request_error opener fuel method path data r o h code text :
  opener h {| method := method; url := _root_url o ++ path; body := data |}
    = HTTPError code text ->
  r && (code =? 401)%Z = false ->
  (code =? 450)%Z = false ->
  _http_request opener (S fuel) method path data r (o, h)
  = (Raise (PureAPIException (Some code) text),
     (o, h ++ [{| method := method; url := _root_url o ++ path;
                  body := data |}])).
Proof.
  intros H H1 H2. rewrite http_request_S. run. rewrite H, H1, H2.
  reflexivity.
Qed.

Lemma strings_of_strings (vs : list string) :
  strings_of (map JStr vs) = Some vs.
Proof.
  induction vs as [|v vs IH]; simpl; [reflexivity | now rewrite IH].
Qed.

(** Negotiation answered directly by a well-formed version list. *)
Lemma choose_rest_version_json opener fuel o h ct content d versions
  new_version :
  let probe := {| method := "GET";
                  url := bare_root (_target o) ++ "api_version";
                  body := JNull |} in
  opener h probe = Response (Some ct) content (Some (JDict d)) ->
  str_in "application/json" ct = true ->
  assoc "version" d = Some (JList (map JStr versions)) ->
  first_supported (sort_desc versions) = Some new_version ->
  _choose_rest_version opener (S fuel) (o, h)
  = (Return new_version,
     (set_root_url (bare_root (_target o)) o, h ++ [probe])).
Proof.
  intros probe H Hct Hd Hv. run.
  rewrite (http_request_json opener fuel "GET" "api_version" JNull true
             (set_root_url (bare_root (_target o)) o) h ct content
             (JDict d) H Hct).
  rewrite Hd, strings_of_strings, Hv. reflexivity.
Qed.

(** Re-authentication answered directly with JSON. *)
Lemma start_session_json opener fuel o h token ct content v :
  let login := {| method := "POST"; url := _root_url o ++ "auth/session";
                  body := JDict [("api_token", JStr token)] |} in
  _api_token o = Some token ->
  opener h login = Response (Some ct) content (Some v) ->
  str_in "application/json" ct = true ->
  _start_session opener (S fuel) (o, h) = (Return tt, (o, h ++ [login])).
Proof.
  intros login Ht H Hct. run. rewrite Ht.
  now rewrite (http_request_json opener fuel "POST" "auth/session" _ false
                 o h ct content v H Hct).
Qed.

(** C4.  A request answered 401 makes the client re-authenticate (one
    [auth/session] request) and issue the same request once more, this time
    without the licence to re-authenticate.  If that second attempt is
    answered 401 again, the call raises [PureAPIException] with code 401 and
    the text of the reply, after exactly three requests: no second
    [auth/session] request is made. *)
Theorem second_auth_failure_is_fatal opener fuel method path data o h token
  text1 ct content v :
  let req := {| method := method; url := _root_url o ++ path;
                body := data |} in
  let login := {| method := "POST"; url := _root_url o ++ "auth/session";
                  body := JDict [("api_token", JStr token)] |} in
  _api_token o = Some token ->
  opener h req = HTTPError 401 text1 ->
  opener (h ++ [req]) login = Response (Some ct) content (Some v) ->
  str_in "application/json" ct = true ->
  _http_request opener (S (S fuel)) method path data true (o, h)
    = _http_request opener (S fuel) method path data false
        (o, h ++ [req; login])
  /\ (forall text2,
        opener (h ++ [req; login]) req = HTTPError 401 text2 ->
        _http_request opener (S (S fuel)) method path data true (o, h)
        = (Raise (PureAPIException (Some 401%Z) text2),
           (o, h ++ [req; login; req]))).
Proof.
  intros req login Ht H1 Hl Hct.
  assert (Hretry :
    _http_request opener (S (S fuel)) method path data true (o, h)
    = _http_request opener (S fuel) method path data false
        (o, h ++ [req; login])).
  { rewrite (http_request_S opener (S fuel)).
    unfold bind at 1, get_self at 1. cbn [fst].
    unfold bind at 1, open at 1. cbn [fst snd]. fold req. rewrite H1.
    cbn [andb Z.eqb Pos.eqb]. unfold bind at 1.
    rewrite (start_session_json opener fuel o (h ++ [req]) token ct content
               v Ht Hl Hct).
    fold login. now rewrite <- app_assoc. }
  split; [exact Hretry|].
  intros text2 H2. rewrite Hretry.
  rewrite (http_request_error opener fuel method path data false o
             (h ++ [req; login]) 401 text2 H2 eq_refl eq_refl).
  fold req. now rewrite <- app_assoc.
Qed.

(** C3.  A request answered 450 makes the client negotiate the version anew
    (one [api_version] request).  If the version found is the one already in
    use, the call raises [PureAPIException] with code 450 and the
    "Unable to find usable REST API version" text at once: the request is
    not issued again.  Otherwise the client adopts the new version and its
    root URL and issues the same request again. *)
Theorem version_rejected_renegotiates opener fuel method path data r o h
  current text ct content d versions new_version :
  let req := {| method := method; url := _root_url o ++ path;
                body := data |} in
  let probe := {| method := "GET";
                  url := bare_root (_target o) ++ "api_version";
                  body := JNull |} in
  _rest_version o = Some current ->
  opener h req = HTTPError 450 text ->
  opener (h ++ [req]) probe = Response (Some ct) content (Some (JDict d)) ->
  str_in "application/json" ct = true ->
  assoc "version" d = Some (JList (map JStr versions)) ->
  first_supported (sort_desc versions) = Some new_version ->
  _http_request opener (S (S fuel)) method path data r (o, h)
  = if new_version =? current then
      (Raise (PureAPIException (Some 450%Z) (unusable_version_message text)),
       (set_root_url (bare_root (_target o)) o, h ++ [req; probe]))
    else
      _http_request opener (S fuel) method path data true
        (set_root_url (versioned_root (_target o) new_version)
           (set_rest_version new_version
              (set_root_url (bare_root (_target o)) o)),
         h ++ [req; probe]).
Proof.
  intros req probe Hcur H1 Hp Hct Hd Hv.
  rewrite (http_request_S opener (S fuel)).
  unfold bind at 1, get_self at 1. cbn [fst].
  unfold bind at 1, open at 1. cbn [fst snd]. fold req. rewrite H1.
  replace (r && (450 =? 401)%Z) with false by now destruct r.
  cbn [Z.eqb Pos.eqb]. unfold bind at 1.
  rewrite (choose_rest_version_json opener fuel o (h ++ [req]) ct content d
             versions new_version Hp Hct Hd Hv).
  fold probe. rewrite <- app_assoc. cbn [app].
  unfold bind at 1, get_self at 1. cbn [fst].
  unfold bind at 1.
  change (_rest_version (set_root_url (bare_root (_target o)) o))
    with (_rest_version o).
  rewrite Hcur. unfold attr, ret at 1.
  destruct (new_version =? current); [reflexivity|].
  unfold bind at 1, modify_self at 1. cbn [fst snd].
  unfold bind at 1, modify_self at 1. cbn [fst snd].
  reflexivity.
Qed.

End FlashArrayFacts.

(** ** The NetApp library: LUN mapping and FC topology *)

Module NetAppFacts.
Import Py PyNotations Spec NetApp.

Ltac run :=
  cbv beta iota zeta delta [bind try_except ask ret raise fst snd].

(** C1.  For every volume reference with a local entry and every initiator
    list: when the map call fails with an [NaApiError] (the array's "mapping
    already exists" conflict is one), [_map_lun] asks
    [_find_mapped_lun_igroup] for the path and the initiators; if that
    answers a LUN id, [_map_lun] returns it; if it answers none, [_map_lun]
    raises the very error of the map call, and has issued nothing after the
    discovery. *)
Theorem map_lun_conflict_fallback (array : zapi) (family : ProtocolFamily)
  lun_table name initiators protocol lun_id u metadata igroup_name h h1
  code message :
  let attempt := MapLun (Path metadata) igroup_name lun_id in
  lun_table name = Some metadata ->
  _get_or_create_igroup array initiators protocol (OsType metadata) u h
    = (Return igroup_name, h1) ->
  array h1 attempt = Raise (NaApiError code message) ->
  (forall group lun h3,
     _find_mapped_lun_igroup (Path metadata) initiators (h1 ++ [attempt])
       = (Return (group, Some lun), h3) ->
     _map_lun array lun_table name initiators protocol lun_id u h
       = (Return lun, h3))
  /\ (forall group h3,
        _find_mapped_lun_igroup (Path metadata) initiators (h1 ++ [attempt])
          = (Return (group, None), h3) ->
        _map_lun array lun_table name initiators protocol lun_id u h
          = (Raise (NaApiError code message), h3)).
Proof.
  intros attempt Ht Hg Hm.
  split; intros; unfold _map_lun; rewrite Ht; unfold bind at 1;
    rewrite Hg; run; fold attempt; rewrite Hm; rewrite H; reflexivity.
Qed.

(** *** Group resolution *)









(** *** Fibre-Channel topology *)

Lemma dict_get_set_same {V} k (v : V) d : dict_get k (dict_set k v d) = Some v.
Proof.
  induction d as [|[k' v'] d IH]; simpl.
  - now rewrite String.eqb_refl.
  - destruct (k' =? k) eqn:E; simpl.
    + now rewrite String.eqb_refl.
    + now rewrite E.
Qed.

Lemma dict_get_set_other {V} k k' (v : V) d :
  k <> k' -> dict_get k (dict_set k' v d) = dict_get k d.
Proof.
  intros Hne. induction d as [|[k0 v0] d IH]; simpl.
  - apply String.eqb_neq in Hne. rewrite String.eqb_sym in Hne.
    now rewrite Hne.
  - destruct (k0 =? k') eqn:E; simpl.
    + apply String.eqb_eq in E. subst k0.
      assert (E' : (k' =? k) = false)
        by (apply String.eqb_neq; congruence).
      now rewrite !E'.
    + destruct (k0 =? k); [reflexivity | exact IH].
Qed.

Lemma dict_get_fill (all : list string) initiators i :
  forall d,
    dict_get i (fold_left (fun d x => dict_set x all d) initiators d)
    = if mem i initiators then Some all else dict_get i d.
Proof.
  induction initiators as [|x rest IH]; intros d; simpl; [reflexivity|].
  rewrite IH. unfold mem in *. simpl.
  destruct (i =? x) eqn:E; simpl.
  - apply String.eqb_eq in E. subst x.
    destruct (existsb (String.eqb i) rest); [reflexivity|].
    apply dict_get_set_same.
  - destruct (existsb (String.eqb i) rest); [reflexivity|].
    apply dict_get_set_other. now apply String.eqb_neq.
Qed.

Lemma mem_In i l : mem i l = true <-> In i l.
Proof.
  unfold mem. rewrite existsb_exists. split.
  - intros (x & Hx & E). apply String.eqb_eq in E. now subst.
  - intros H. exists i. split; [exact H | apply String.eqb_refl].
Qed.

(** C6.  Without a lookup service, [_build_initiator_target_map] answers
    the target WWPNs the array reports, a map that gives every initiator of
    the connector exactly that list (and has no other key), and 0 paths. *)
Theorem flat_topology_without_lookup (family : ProtocolFamily) wwpns h all
  h1 :
  _get_fc_target_wwpns h = (Return all, h1) ->
  exists init_targ_map,
    _build_initiator_target_map None wwpns h
      = (Return (all, init_targ_map, 0), h1)
    /\ (forall i, In i wwpns -> dict_get i init_targ_map = Some all)
    /\ (forall i, ~ In i wwpns -> dict_get i init_targ_map = None).
Proof.
  intros Hg.
  exists (fold_left (fun d x => dict_set x all d) wwpns []).
  split; [|split].
  - unfold _build_initiator_target_map. run. now rewrite Hg.
  - intros i Hi. rewrite dict_get_fill.
    now rewrite (proj2 (mem_In i wwpns) Hi).
  - intros i Hi. rewrite dict_get_fill.
    destruct (mem i wwpns) eqn:E; [|reflexivity].
    now apply mem_In in E.
Qed.

(** With a lookup service, [_build_initiator_target_map] answers as target
    set the union of the targets of all lines of the service's answer (each
    target once) and as number of paths the sum of the lines' path counts.
    For the connector initiators A and B and the answer A -> {T1},
    B -> {T2, T3} the target set is {T1, T2, T3} and the number of paths is
    the sum of the two counts reported for A and for B, whatever they
    are. *)
Lemma lookup_topology_union_and_sum (family : ProtocolFamily) svc :
  (forall wwpns h all h1,
     _get_fc_target_wwpns h = (Return all, h1) ->
     exists target_wwpns init_targ_map,
       _build_initiator_target_map (Some svc) wwpns h
         = (Return (target_wwpns, init_targ_map,
                    list_sum (map fe_paths (svc wwpns all))), h1)
       /\ NoDup target_wwpns
       /\ (forall t, In t target_wwpns <->
                     exists e, In e (svc wwpns all) /\ In t (fe_targets e)))
  /\ (forall h all h1 pa pb,
        _get_fc_target_wwpns h = (Return all, h1) ->
        svc ["A"; "B"] all
          = [ {| fe_initiator := "A"; fe_targets := ["T1"]; fe_paths := pa |};
              {| fe_initiator := "B"; fe_targets := ["T2"; "T3"];
                 fe_paths := pb |} ] ->
        _build_initiator_target_map (Some svc) ["A"; "B"] h
          = (Return (["T1"; "T2"; "T3"],
                     [("A", ["T1"]); ("B", ["T2"; "T3"])],
                     pa + pb), h1)).
Proof.
  split.
  - intros wwpns h all h1 Hg.
    eexists. eexists. split; [|split].
    + unfold _build_initiator_target_map. run. rewrite Hg. reflexivity.
    + apply NoDup_nodup.
    + intros t. rewrite nodup_In, in_concat. split.
      * intros (l & Hl & Ht). apply in_map_iff in Hl as (e & He & Hin).
        exists e. subst l. now split.
      * intros (e & He & Ht). exists (fe_targets e). split; [|exact Ht].
        now apply in_map.
  - intros h all h1 pa pb Hg Hs.
    unfold _build_initiator_target_map. run. rewrite Hg, Hs.
    cbn [map fe_paths list_sum fold_right].
    rewrite Nat.add_0_r. reflexivity.
Qed.

End NetAppFacts.

(** ** The statements at work on concrete arrays *)

Module PureCases.
Import Py Spec Examples Pure Pure.FlashArray Pure.PureISCSIDriver.
Import FlashArrayFacts PureDriverFacts.

(** An array that answers every request 401: one login, one retry, then
    the 401 is raised. *)
Lemma second_auth_failure_is_fatal_witness :
  _http_request always_expired 2 "GET" "host" JNull true (session_v13, [])
  = (Raise (PureAPIException (Some 401%Z) "session expired"),
     (session_v13,
      [ {| method := "GET"; url := "https://array/api/1.3/host";
           body := JNull |};
        {| method := "POST"; url := "https://array/api/1.3/auth/session";
           body := JDict [("api_token", JStr "secret")] |};
        {| method := "GET"; url := "https://array/api/1.3/host";
           body := JNull |} ])).
Proof.
  exact (proj2
           (second_auth_failure_is_fatal always_expired 0 "GET" "host" JNull
              session_v13 [] "secret" "session expired" json_type "{}"
              (JDict []) eq_refl eq_refl eq_refl eq_refl)
           "session expired" eq_refl).
Defined.

(** An array that rejects version 1.2 and yet offers nothing better: the
    call fails after the one negotiation. *)
Lemma version_rejected_renegotiates_witness :
  _http_request always_rejecting 2 "GET" "host" JNull true (session_v12, [])
  = (Raise (PureAPIException (Some 450%Z)
              (unusable_version_message "unsupported version")),
     (set_root_url "https://array/api/" session_v12,
      [ {| method := "GET"; url := "https://array/api/1.2/host";
           body := JNull |};
        {| method := "GET"; url := "https://array/api/api_version";
           body := JNull |} ])).
Proof.
  exact (version_rejected_renegotiates always_rejecting 0 "GET" "host" JNull
           true session_v12 [] "1.2" "unsupported version" json_type "..."
           [("version", JList (map JStr ["1.0"; "1.2"; "1.1"]))]
           ["1.0"; "1.2"; "1.1"] "1.2"
           eq_refl eq_refl eq_refl eq_refl eq_refl eq_refl).
Defined.

(** The generated host loses its last connection and is deleted; the
    admin-named host is left alone. *)
Lemma disconnect_host_deletes_iff_witness :
  In (DeleteHost host7)
     (issued [] (_disconnect_host lab host7 "data-cinder" []))
  /\ ~ In (DeleteHost "admin-host")
         (issued [] (_disconnect_host lab "admin-host" "data-cinder" [])).
Proof.
  split.
  - apply (proj1 (disconnect_host_deletes_iff lab [] host7 "data-cinder")
             eq_refl).
    split; [reflexivity|]. exists (JList []). split; reflexivity.
  - apply (proj1 (proj2 (disconnect_host_deletes_iff lab [] "admin-host"
                           "data-cinder"))).
    reflexivity.
Defined.

(** The connection exists already and is found in the listing. *)
Lemma connect_conflict_recovery_witness :
  _connect lab (vol "data") compute1 7 []
  = (Return (JDict [("host", JStr host7); ("lun", JInt 2)]),
     [ ListHosts; CreateHost host7 [c_initiator compute1];
       ConnectHost host7 "data-cinder"; ListVolumeHosts "data-cinder" ]).
Proof.
  exact (connect_conflict_recovery lab (vol "data") compute1 7 [] host7
           [ListHosts; CreateHost host7 [c_initiator compute1]]
           "Connection already exists." connections
           eq_refl eq_refl eq_refl eq_refl eq_refl).
Defined.

(** A missing snapshot and a missing volume are passed over; a volume that
    cannot be destroyed for another reason is not. *)
Lemma destroy_failure_handling_witness :
  delete_snapshot lab snap [] = (Return tt, [DestroyVolume "data-cinder.snap1"])
  /\ delete_volume lab (vol "gone") []
     = (Return tt, [ListVolumeHosts "gone-cinder"; DestroyVolume "gone-cinder"])
  /\ delete_volume lab (vol "busy") []
     = (Raise (PureAPIException (Some 400%Z) "Volume has snapshots."),
        [ListVolumeHosts "busy-cinder"; DestroyVolume "busy-cinder"]).
Proof.
  split; [|split].
  - exact (proj1 (destroy_failure_handling lab) snap [] 400%Z
             "Volume does not exist." eq_refl).
  - exact (proj1 (proj2 (destroy_failure_handling lab)) (vol "gone") []
             (JList []) [] [ListVolumeHosts "gone-cinder"] 400%Z
             "Volume does not exist." eq_refl eq_refl eq_refl eq_refl).
  - exact (proj1 (proj2 (destroy_failure_handling lab)) (vol "busy") []
             (JList []) [] [ListVolumeHosts "busy-cinder"] 400%Z
             "Volume has snapshots." eq_refl eq_refl eq_refl eq_refl).
Defined.

(** A name of 31 characters: the first 23 are kept, ['_'] and ['.'] become
    ['-'], and the two leading ['-'] go. *)
Lemma generated_host_name_matches_witness :
  _generate_purity_host_name "--Compute_1.example.org/rack#42" 7
  = "Compute-1-example-org-00000000000000000000000000000007-cinder"
  /\ Re.re_match GENERATED_NAME
       "Compute-1-example-org-00000000000000000000000000000007-cinder"
     = true.
Proof.
  destruct (PureNames.generated_host_name_matches
              "--Compute_1.example.org/rack#42" 7)
    as (Hname & _ & _ & _ & _ & _ & _ & Hmatch).
  split; [exact Hname|].
  rewrite Hname in Hmatch. exact Hmatch.
Defined.

End PureCases.

Module NetAppCases.
Import Py Spec Examples NetApp NetAppFacts.

(** The volume is mapped already: with a family that finds the mapping the
    LUN id comes back, with one that does not the array's error does. *)
Lemma map_lun_conflict_fallback_witness :
  @_map_lun mapped_already fc_mapped lun_table "fake_volume"
     ["21000024ff406cc3"] "fcp" None "u1" []
  = (Return "2",
     [ GetIgroupByInitiators ["21000024ff406cc3"];
       MapLun "/vol/vol1/lun1" "openstack-igroup1" None ])
  /\ @_map_lun mapped_already fc_unmapped lun_table "fake_volume"
       ["21000024ff406cc3"] "fcp" None "u1" []
     = (Raise (NaApiError "9016" "LUN already mapped"),
        [ GetIgroupByInitiators ["21000024ff406cc3"];
          MapLun "/vol/vol1/lun1" "openstack-igroup1" None ]).
Proof.
  split.
  - exact (proj1
             (map_lun_conflict_fallback mapped_already fc_mapped lun_table
                "fake_volume" ["21000024ff406cc3"] "fcp" None "u1"
                {| Path := "/vol/vol1/lun1"; OsType := "linux" |}
                "openstack-igroup1" []
                [GetIgroupByInitiators ["21000024ff406cc3"]]
                "9016" "LUN already mapped" eq_refl eq_refl eq_refl)
             (Some "openstack-igroup1") "2" _ eq_refl).
  - exact (proj2
             (map_lun_conflict_fallback mapped_already fc_unmapped lun_table
                "fake_volume" ["21000024ff406cc3"] "fcp" None "u1"
                {| Path := "/vol/vol1/lun1"; OsType := "linux" |}
                "openstack-igroup1" []
                [GetIgroupByInitiators ["21000024ff406cc3"]]
                "9016" "LUN already mapped" eq_refl eq_refl eq_refl)
             None _ eq_refl).
Defined.


(** A flat topology for two initiators. *)
Lemma flat_topology_without_lookup_witness :
  exists init_targ_map,
    @_build_initiator_target_map fc_mapped None ["A"; "B"] []
      = (Return (TARGETS, init_targ_map, 0), [])
    /\ dict_get "A" init_targ_map = Some TARGETS
    /\ dict_get "B" init_targ_map = Some TARGETS
    /\ dict_get "C" init_targ_map = None.
Proof.
  destruct (flat_topology_without_lookup fc_mapped ["A"; "B"] [] TARGETS []
              eq_refl) as (m & Hrun & Hin & Hout).
  exists m. split; [exact Hrun|]. split; [|split].
  - apply Hin. simpl. auto.
  - apply Hin. simpl. auto.
  - apply Hout. simpl. intros [E | [E | []]]; discriminate.
Defined.

(** The number of paths follows the counts the service reports: two for one
    path each, three for one path and two. *)
Lemma lookup_topology_counts :
  @_build_initiator_target_map fc_mapped (Some (fabric 1 1)) ["A"; "B"] []
  = (Return (["T1"; "T2"; "T3"], [("A", ["T1"]); ("B", ["T2"; "T3"])], 2),
     [])
  /\ @_build_initiator_target_map fc_mapped (Some (fabric 1 2)) ["A"; "B"] []
     = (Return (["T1"; "T2"; "T3"], [("A", ["T1"]); ("B", ["T2"; "T3"])],
                3),
        []).
Proof.
  split.
  - exact (proj2 (lookup_topology_union_and_sum fc_mapped (fabric 1 1)) []
             TARGETS [] 1 1 eq_refl eq_refl).
  - exact (proj2 (lookup_topology_union_and_sum fc_mapped (fabric 1 2)) []
             TARGETS [] 1 2 eq_refl eq_refl).
Qed.

End NetAppCases.

(** ** The order of versions *)

Module VersionFacts.
Import Py MoreSpec Pure Pure.FlashArray.

Lemma ascii_compare_lt_trans a b c :
  Ascii.compare a b = Lt -> Ascii.compare b c = Lt -> Ascii.compare a c = Lt.
Proof.
  unfold Ascii.compare. rewrite !N.compare_lt_iff. lia.
Qed.

Lemma compare_lt_trans s1 :
  forall s2 s3,
    String.compare s1 s2 = Lt -> String.compare s2 s3 = Lt ->
    String.compare s1 s3 = Lt.
Proof.
  induction s1 as [|a s1 IH]; intros [|b s2] [|c s3]; simpl;
    try discriminate; try reflexivity.
  destruct (Ascii.compare a b) eqn:Eab; try discriminate.
  - apply Ascii.compare_eq_iff in Eab. subst b.
    destruct (Ascii.compare a c) eqn:Eac; try discriminate; try reflexivity.
    apply IH.
  - intros _.
    destruct (Ascii.compare b c) eqn:Ebc; try discriminate.
    + apply Ascii.compare_eq_iff in Ebc. subst c. now rewrite Eab.
    + intros _. now rewrite (ascii_compare_lt_trans _ _ _ Eab Ebc).
Qed.

Lemma ltb_not_below y x : String.ltb y x = true -> not_below x y.
Proof.
  unfold not_below, String.ltb. rewrite (String.compare_antisym x y).
  destruct (String.compare y x); simpl; congruence.
Qed.

Lemma not_below_trans x y z :
  String.ltb y x = true -> not_below y z -> not_below x z.
Proof.
  unfold not_below, String.ltb. intros Hyx Hyz.
  destruct (String.compare y x) eqn:Eyx; try discriminate.
  destruct (String.compare y z) eqn:Eyz; try discriminate.
  - apply String.compare_eq_iff in Eyz. subst z.
    rewrite (String.compare_antisym x y), Eyx. reflexivity.
  - assert (Ezy : String.compare z y = Lt).
    { rewrite (String.compare_antisym z y), Eyz. reflexivity. }
    pose proof (compare_lt_trans _ _ _ Ezy Eyx) as Ezx.
    rewrite (String.compare_antisym x z), Ezx. reflexivity.
Qed.

Lemma insert_desc_In x y l : In y (insert_desc x l) <-> y = x \/ In y l.
Proof.
  induction l as [|z l IH]; simpl.
  - intuition.
  - destruct (String.ltb z x); simpl; [intuition|].
    rewrite IH. intuition.
Qed.

Lemma sort_desc_In y l : In y (sort_desc l) <-> In y l.
Proof.
  induction l as [|x l IH]; simpl; [reflexivity|].
  rewrite insert_desc_In, IH. intuition.
Qed.

Lemma insert_desc_sorted x l :
  StronglySorted not_below l -> StronglySorted not_below (insert_desc x l).
Proof.
  induction 1 as [|y l Hs IH Hy]; simpl.
  - constructor; constructor.
  - destruct (String.ltb y x) eqn:E.
    + constructor; [constructor; assumption|].
      constructor; [now apply ltb_not_below|].
      rewrite Forall_forall in *. intros z Hz.
      apply (not_below_trans x y z E). now apply Hy.
    + constructor; [exact IH|].
      rewrite Forall_forall in *. intros z Hz.
      apply insert_desc_In in Hz as [-> | Hz]; [exact E | now apply Hy].
Qed.

Lemma sort_desc_sorted l : StronglySorted not_below (sort_desc l).
Proof.
  induction l as [|x l IH]; simpl; [constructor|].
  now apply insert_desc_sorted.
Qed.

Lemma supported_cases v : supported v = true -> v = "1.3" \/ v = "1.2".
Proof.
  unfold supported. simpl. rewrite !orb_true_iff, !String.eqb_eq.
  intros [H | [H | H]]; [now left | now right | discriminate H].
Qed.

Lemma find_supported_sorted l :
  StronglySorted not_below l ->
  find supported l
  = if existsb (String.eqb "1.3") l then Some "1.3"
    else if existsb (String.eqb "1.2") l then Some "1.2"
    else None.
Proof.
  induction 1 as [|y l Hs IH Hy]; cbn [find existsb]; [reflexivity|].
  destruct (supported y) eqn:Sy.
  - apply supported_cases in Sy as [-> | ->].
    + rewrite String.eqb_refl. reflexivity.
    + change ("1.3" =? "1.2") with false.
      rewrite String.eqb_refl. cbn [orb].
      destruct (existsb (String.eqb "1.3") l) eqn:E; [|reflexivity].
      apply existsb_exists in E as (z & Hz & Ez).
      apply String.eqb_eq in Ez. subst z.
      rewrite Forall_forall in Hy. specialize (Hy _ Hz). discriminate Hy.
  - rewrite IH.
    assert (E3 : ("1.3" =? y) = false).
    { apply String.eqb_neq. intros <-. discriminate Sy. }
    assert (E2 : ("1.2" =? y) = false).
    { apply String.eqb_neq. intros <-. discriminate Sy. }
    now rewrite E3, E2.
Qed.

Lemma existsb_sort_desc v l :
  existsb (String.eqb v) (sort_desc l) = existsb (String.eqb v) l.
Proof.
  apply eq_true_iff_eq. rewrite !existsb_exists. split.
  - intros (x & Hx & E). exists x. split; [now apply sort_desc_In | exact E].
  - intros (x & Hx & E). exists x. split; [now apply sort_desc_In | exact E].
Qed.

Lemma first_supported_highest vs :
  first_supported (sort_desc vs)
  = highest_supported vs.
Proof.
  unfold first_supported, highest_supported.
  change (fun version => existsb (String.eqb version)
                           SUPPORTED_REST_API_VERSIONS) with supported.
  rewrite (find_supported_sorted _ (sort_desc_sorted vs)).
  now rewrite !existsb_sort_desc.
Qed.

End VersionFacts.

(** ** The REST client: negotiation, construction and what a request keeps *)

Module FlashArrayMore.
Import Py PyNotations Spec MoreSpec Pure Pure.FlashArray FlashArrayFacts.
Import VersionFacts.

Lemma http_request_reply opener fuel method path data r o h v :
  json_reply
    (opener h {| method := method; url := _root_url o ++ path;
                 body := data |}) v ->
  _http_request opener (S fuel) method path data r (o, h)
  = (Return v,
     (o, h ++ [{| method := method; url := _root_url o ++ path;
                  body := data |}])).
Proof.
  intros (ct & content & H & Hct).
  now apply (http_request_json _ _ _ _ _ _ _ _ ct content).
Qed.

(** Negotiation answered directly: the highest supported version that the
    array offers, whatever the order of its list; an exception when it
    offers none. *)
Lemma choose_rest_version_run opener fuel o h d versions :
  json_reply (opener h (probe_of (_target o))) (JDict d) ->
  assoc "version" d = Some (JList (map JStr versions)) ->
  _choose_rest_version opener (S fuel) (o, h)
  = (match highest_supported versions with
     | Some version => Return version
     | None => Raise (PureDriverException no_version_message)
     end,
     (set_root_url (bare_root (_target o)) o, h ++ [probe_of (_target o)])).
Proof.
  intros Hr Hd. run.
  rewrite (http_request_reply opener fuel "GET" "api_version" JNull true
             (set_root_url (bare_root (_target o)) o) h (JDict d) Hr).
  rewrite Hd, strings_of_strings, first_supported_highest.
  now destruct (highest_supported versions).
Qed.

(** X1.  [_choose_rest_version], answered directly with a list of
    versions, returns "1.3" when the list holds it, else "1.2" when the list
    holds that, whatever the order of the list, and raises
    [PureDriverException] when it holds neither; it sends the one
    [api_version] request and leaves the root URL at ["https://<target>/api/"]. *)
Theorem choose_rest_version_takes_highest opener fuel o h d versions :
  json_reply (opener h (probe_of (_target o))) (JDict d) ->
  assoc "version" d = Some (JList (map JStr versions)) ->
  _choose_rest_version opener (S fuel) (o, h)
  = (match highest_supported versions with
     | Some version => Return version
     | None => Raise (PureDriverException no_version_message)
     end,
     (set_root_url (bare_root (_target o)) o, h ++ [probe_of (_target o)])).
Proof. exact (choose_rest_version_run opener fuel o h d versions). Qed.

(** *** What a request leaves of the object *)

Ltac fa_run H :=
  cbv beta iota zeta delta
    [bind ret raise get_self modify_self attr open getitem version_list
     _start_session _start_session_with _choose_rest_version
     _choose_rest_version_with fst snd] in H.

Ltac leaf H :=
  inversion H; subst; clear H; simpl in *;
  first [ now auto | split; congruence | intuition congruence ].

Lemma http_request_identity opener fuel :
  forall method path data r o h res o' h',
    _http_request opener fuel method path data r (o, h) = (res, (o', h')) ->
    _target o' = _target o /\ _api_token o' = _api_token o.
Proof.
  induction fuel as [|fuel IH]; intros method path data r o h res o' h' H;
    [leaf H|].
  rewrite http_request_S in H. fa_run H.
  destruct (opener h _) as [code text | | ct content loads].
  - destruct (r && (code =? 401)%Z).
    + destruct (_api_token o) as [token|] eqn:Tk; [|leaf H].
      destruct (_http_request opener fuel "POST" "auth/session" _ false _)
        as [[a | e |] [o1 h1]] eqn:E1; apply IH in E1; try leaf H.
      apply IH in H. intuition congruence.
    + destruct (code =? 450)%Z; [|leaf H].
      destruct (_http_request opener fuel "GET" "api_version" JNull true _)
        as [[a | e |] [o1 h1]] eqn:E1; apply IH in E1; simpl in E1;
        try leaf H.
      destruct a as [| | | | |d]; try leaf H.
      destruct (assoc "version" d) as [vl|]; try leaf H.
      destruct vl as [| | | |l|]; try leaf H.
      destruct (strings_of l) as [vs|]; try leaf H.
      destruct (first_supported (sort_desc vs)) as [nv|]; try leaf H.
      destruct (_rest_version o1) as [cur|]; try leaf H.
      destruct (nv =? cur); try leaf H.
      apply IH in H. simpl in H. intuition congruence.
  - leaf H.
  - destruct ct as [ct|]; [|leaf H].
    destruct (str_in "application/json" ct); [|leaf H].
    destruct loads; leaf H.
Qed.

(** X2.  Whatever the array answers and however the call ends,
    [_http_request] leaves [self._target] and [self._api_token] as they
    were: only the version and the root URL are ever reassigned. *)
Theorem http_request_keeps_target_and_token opener fuel method path data r
  o h :
  let o' := fst (snd (_http_request opener fuel method path data r (o, h))) in
  _target o' = _target o /\ _api_token o' = _api_token o.
Proof.
  cbv zeta.
  destruct (_http_request opener fuel method path data r (o, h))
    as [res [o' h']] eqn:E.
  exact (http_request_identity opener fuel _ _ _ _ _ _ _ _ _ E).
Qed.

Ltac leaf_ok H :=
  first [ discriminate H
        | inversion H; subst; clear H; assumption ].

Lemma http_request_consistent opener fuel :
  forall method path data r o h a o' h',
    consistent o ->
    _http_request opener fuel method path data r (o, h)
      = (Return a, (o', h')) ->
    consistent o'.
Proof.
  induction fuel as [|fuel IH];
    intros method path data r o h a o' h' Hc H; [discriminate H|].
  rewrite http_request_S in H. fa_run H.
  destruct (opener h _) as [code text | | ct content loads].
  - destruct (r && (code =? 401)%Z).
    + destruct (_api_token o) as [token|] eqn:Tk; [|leaf_ok H].
      destruct (_http_request opener fuel "POST" "auth/session" _ false _)
        as [[x | e |] [o1 h1]] eqn:E1; try leaf_ok H.
      apply (IH _ _ _ _ _ _ _ _ _ Hc) in E1.
      exact (IH _ _ _ _ _ _ _ _ _ E1 H).
    + destruct (code =? 450)%Z; [|leaf_ok H].
      destruct (_http_request opener fuel "GET" "api_version" JNull true _)
        as [[x | e |] [o1 h1]] eqn:E1; try leaf_ok H.
      destruct x as [| | | | |d]; try leaf_ok H.
      destruct (assoc "version" d) as [vl|]; try leaf_ok H.
      destruct vl as [| | | |l|]; try leaf_ok H.
      destruct (strings_of l) as [vs|]; try leaf_ok H.
      destruct (first_supported (sort_desc vs)) as [nv|]; try leaf_ok H.
      destruct (_rest_version o1) as [cur|]; try leaf_ok H.
      destruct (nv =? cur); try leaf_ok H.
      refine (IH _ _ _ _ _ _ _ _ _ _ H).
      unfold consistent. reflexivity.
  - leaf_ok H.
  - destruct ct as [ct|]; [|leaf_ok H].
    destruct (str_in "application/json" ct); [|leaf_ok H].
    destruct loads; leaf_ok H.
Qed.

(** X3.  If the root URL is the one of the negotiated version when
    [_http_request] is called and the call returns a value, the root URL is
    again the one of the negotiated version afterwards, through any number
    of re-authentications and renegotiations. *)
Theorem successful_request_keeps_root_url opener fuel method path data r o h
  a o' h' :
  consistent o ->
  _http_request opener fuel method path data r (o, h) = (Return a, (o', h')) ->
  consistent o'.
Proof. apply http_request_consistent. Qed.

(** X4.  When a request is answered 401 and the login request that
    follows is itself refused (with any status but 450), the call raises
    [PureAPIException] with the status and text of the login reply after
    these two requests; the original request is not sent again. *)
Theorem refused_login_is_fatal opener fuel method path data o h token text1
  code text :
  let req := {| method := method; url := _root_url o ++ path;
                body := data |} in
  let login := login_of (_root_url o) token in
  _api_token o = Some token ->
  opener h req = HTTPError 401 text1 ->
  opener (h ++ [req]) login = HTTPError code text ->
  code <> 450%Z ->
  _http_request opener (S (S fuel)) method path data true (o, h)
  = (Raise (PureAPIException (Some code) text), (o, h ++ [req; login])).
Proof.
  intros req login Ht H1 Hl Hc.
  rewrite (http_request_S opener (S fuel)).
  unfold bind at 1, get_self at 1. cbn [fst].
  unfold bind at 1, open at 1. cbn [fst snd]. fold req. rewrite H1.
  cbn [andb Z.eqb Pos.eqb]. unfold bind at 1.
  unfold _start_session, _start_session_with.
  unfold bind at 1, get_self at 1. cbn [fst].
  unfold bind at 1. rewrite Ht. unfold attr, ret at 1.
  unfold bind at 1.
  rewrite (http_request_error opener fuel "POST" "auth/session" _ false o
             (h ++ [req]) code text Hl eq_refl
             (proj2 (Z.eqb_neq code 450) Hc)).
  fold login. now rewrite <- app_assoc.
Qed.

(** *** Construction *)

(** X5.  [FlashArray(target, api_token)] sends the [api_version]
    request to ["https://<target>/api/"] and then the login request, with
    the token, to the root URL of the highest supported version offered; the
    object then holds that version, its root URL and the token. *)
Theorem init_negotiates_then_logs_in opener fuel target token h d versions
  version v :
  let probe := probe_of target in
  let login := login_of (versioned_root target version) token in
  json_reply (opener h probe) (JDict d) ->
  assoc "version" d = Some (JList (map JStr versions)) ->
  highest_supported versions = Some version ->
  json_reply (opener (h ++ [probe]) login) v ->
  __init__ opener (S fuel) target token h
  = (Return tt,
     ({| _target := target; _rest_version := Some version;
         _root_url := versioned_root target version;
         _api_token := Some token |},
      h ++ [probe; login])).
Proof.
  intros probe login Hp Hd Hv Hl. unfold __init__.
  fold (fresh target). unfold bind at 1.
  rewrite (choose_rest_version_run opener fuel (fresh target) h d versions
             Hp Hd).
  rewrite Hv.
  unfold bind at 1, modify_self at 1. cbn [fst snd].
  unfold bind at 1, modify_self at 1. cbn [fst snd].
  unfold bind at 1, modify_self at 1. cbn [fst snd].
  unfold _start_session, _start_session_with.
  unfold bind at 1, get_self at 1. cbn [fst].
  unfold bind at 1, attr at 1, ret at 1.
  cbn [_api_token set_api_token].
  unfold bind at 1.
  match goal with
  | |- context [_http_request opener (S fuel) "POST" "auth/session" ?b false
                  (?o, ?hh)] =>
      rewrite (http_request_reply opener fuel "POST" "auth/session" b false
                 o hh v Hl)
  end.
  unfold ret. cbn [fresh _target]. fold probe login.
  now rewrite <- app_assoc.
Qed.

(** X6.  When the array offers neither "1.3" nor "1.2",
    [FlashArray(target, api_token)] raises [PureDriverException] after the
    [api_version] request: no login is attempted. *)
Theorem init_without_common_version opener fuel target token h d versions :
  let probe := probe_of target in
  json_reply (opener h probe) (JDict d) ->
  assoc "version" d = Some (JList (map JStr versions)) ->
  highest_supported versions = None ->
  __init__ opener (S fuel) target token h
  = (Raise (PureDriverException no_version_message),
     ({| _target := target; _rest_version := None;
         _root_url := bare_root target; _api_token := None |},
      h ++ [probe])).
Proof.
  intros probe Hp Hd Hv. unfold __init__.
  fold (fresh target). unfold bind at 1.
  rewrite (choose_rest_version_run opener fuel (fresh target) h d versions
             Hp Hd).
  rewrite Hv. reflexivity.
Qed.

(** X7.  When the [api_version] request of the constructor is
    answered 450 and the repeated request is answered with a usable list,
    the constructor raises AttributeError: the handler compares the version
    found with [self._rest_version], which [__init__] has not assigned
    yet. *)
Theorem init_version_rejected opener fuel target token h text d versions
  version :
  let probe := probe_of target in
  opener h probe = HTTPError 450 text ->
  json_reply (opener (h ++ [probe]) probe) (JDict d) ->
  assoc "version" d = Some (JList (map JStr versions)) ->
  highest_supported versions = Some version ->
  __init__ opener (S (S fuel)) target token h
  = (Raise (PyError "AttributeError"),
     ({| _target := target; _rest_version := None;
         _root_url := bare_root target; _api_token := None |},
      h ++ [probe; probe])).
Proof.
  intros probe H1 Hp Hd Hv. unfold __init__.
  fold (fresh target). unfold bind at 1.
  unfold _choose_rest_version at 1, _choose_rest_version_with at 1.
  unfold bind at 1, get_self at 1. cbn [fst].
  unfold bind at 1, modify_self at 1. cbn [fst snd].
  unfold bind at 1.
  rewrite (http_request_S opener (S fuel)).
  unfold bind at 1, get_self at 1. cbn [fst].
  unfold bind at 1, open at 1. cbn [fst snd].
  match goal with
  | |- context [opener h ?r] => change r with probe
  end.
  rewrite H1. cbn [andb Z.eqb Pos.eqb]. unfold bind at 1.
  match goal with
  | |- context [_choose_rest_version opener (S fuel) (?o1, ?hh)] =>
      rewrite (choose_rest_version_run opener fuel o1 hh d versions Hp Hd)
  end.
  rewrite Hv. cbn [fresh set_root_url _target _rest_version _root_url
                   _api_token].
  unfold bind at 1, get_self at 1. cbn [fst].
  cbn [_rest_version]. unfold bind at 1, attr at 1, raise at 1.
  fold probe. now rewrite <- app_assoc.
Qed.

Lemma choose_rest_version_diverges opener target :
  (forall h, exists text, opener h (probe_of target) = HTTPError 450 text) ->
  forall fuel o h,
    _target o = target ->
    fst (_choose_rest_version opener fuel (o, h)) = OutOfFuel.
Proof.
  intros Hp. induction fuel as [|fuel IH]; intros o h Ht; [reflexivity|].
  unfold _choose_rest_version, _choose_rest_version_with.
  unfold bind at 1, get_self at 1. cbn [fst].
  unfold bind at 1, modify_self at 1. cbn [fst snd].
  unfold bind at 1.
  rewrite http_request_S.
  unfold bind at 1, get_self at 1. cbn [fst].
  unfold bind at 1, open at 1. cbn [fst snd].
  match goal with
  | |- context [opener h ?r] => change r with (probe_of (_target o))
  end.
  rewrite Ht. destruct (Hp h) as [text E]. rewrite E.
  cbn [andb Z.eqb Pos.eqb]. unfold bind at 1.
  specialize (IH (set_root_url (bare_root target) o)
                 (h ++ [probe_of target]) Ht).
  destruct (_choose_rest_version opener fuel
              (set_root_url (bare_root target) o, h ++ [probe_of target]))
    as [res w].
  simpl in IH. subst res. reflexivity.
Qed.

(** X8.  When the array answers every [api_version] request with
    450, [_choose_rest_version] and [_http_request] call each other without
    end: whatever depth the recursion is allowed, the constructor ends
    neither with a value nor with an exception of its own. *)
Theorem rejected_version_query_never_ends opener target :
  (forall h, exists text, opener h (probe_of target) = HTTPError 450 text) ->
  forall fuel token h,
    fst (__init__ opener fuel target token h) = OutOfFuel.
Proof.
  intros Hp fuel token h. unfold __init__.
  fold (fresh target). unfold bind at 1.
  pose proof (choose_rest_version_diverges opener target Hp fuel
                (fresh target) h eq_refl) as H.
  destruct (_choose_rest_version opener fuel (fresh target, h)) as [res w].
  simpl in H. subst res. reflexivity.
Qed.

End FlashArrayMore.

(** ** Host names: the pattern and the generator *)

Module NameFacts.
Import Py Spec MoreSpec StringFacts Pure.

Lemma append_assoc (a b c : string) : ((a ++ b) ++ c = a ++ (b ++ c))%string.
Proof. induction a as [|x a IH]; simpl; [reflexivity | now rewrite IH]. Qed.

Lemma append_nil_r (a : string) : (a ++ "")%string = a.
Proof. induction a as [|x a IH]; simpl; [reflexivity | now rewrite IH]. Qed.

Lemma append_inv_head (p a b : string) :
  (p ++ a)%string = (p ++ b)%string -> a = b.
Proof.
  induction p as [|x p IH]; simpl; intros H; [exact H|].
  injection H as H. now apply IH.
Qed.

Lemma append_inv_length (a b c d : string) :
  String.length a = String.length b ->
  (a ++ c)%string = (b ++ d)%string -> a = b /\ c = d.
Proof.
  revert b. induction a as [|x a IH]; intros [|y b] L H; simpl in *;
    try discriminate; [now split|].
  injection H as -> H. injection L as L.
  destruct (IH b L H) as [-> ->]. now split.
Qed.

(** *** What [GENERATED_NAME] matches *)

Lemma star_match_inv a k (s : string) :
  Re.star_match a k s = true ->
  exists p r,
    s = (p ++ r)%string /\ all_chars (Re.atom_ok a) p = true /\ k r = true.
Proof.
  induction s as [|c s IH]; simpl; intros H.
  - exists "", "". now repeat split.
  - apply orb_true_iff in H as [H | H].
    + apply andb_true_iff in H as [Hc Hs].
      destruct (IH Hs) as (p & r & -> & Hp & Hk).
      exists (String c p), r. simpl. now rewrite Hc, Hp.
    + exists "", (String c s). now repeat split.
Qed.

Lemma rep_match_inv n a k :
  forall s : string,
    Re.rep_match n a k s = true ->
    exists h r,
      s = (h ++ r)%string /\ String.length h = n
      /\ all_chars (Re.atom_ok a) h = true /\ k r = true.
Proof.
  induction n as [|n IH]; simpl; intros s H.
  - exists "", s. now repeat split.
  - destruct s as [|c s]; [discriminate|].
    apply andb_true_iff in H as [Hc Hs].
    destruct (IH s Hs) as (h & r & -> & Hl & Hh & Hk).
    exists (String c h), r. simpl. now rewrite Hc, Hh, Hl.
Qed.

Lemma lits_match w rest :
  forall r : string,
    Re.match_here (Re.lits w ++ rest) (w ++ r) = Re.match_here rest r.
Proof.
  unfold Re.lits. induction w as [|c w IH]; intros r; [reflexivity|].
  cbn [list_ascii_of_string map app Re.match_here String.append Re.atom_ok].
  now rewrite Ascii.eqb_refl, IH.
Qed.

Lemma lits_match_inv w rest :
  forall s : string,
    Re.match_here (Re.lits w ++ rest) s = true ->
    exists r, s = (w ++ r)%string /\ Re.match_here rest r = true.
Proof.
  unfold Re.lits. induction w as [|c w IH]; intros s H.
  - exists s. now split.
  - cbn [list_ascii_of_string map app Re.match_here Re.atom_ok] in H.
    destruct s as [|x s]; [discriminate|].
    apply andb_true_iff in H as [Hx Hs].
    apply Ascii.eqb_eq in Hx. subst x.
    destruct (IH s Hs) as (r & -> & Hr). now exists r.
Qed.

Lemma at_eol_inv (s : string) :
  Re.at_eol s = true <-> s = "" \/ s = String Re.newline "".
Proof.
  destruct s as [|c [|d s]]; simpl.
  - intuition.
  - rewrite Ascii.eqb_eq. split.
    + intros ->. now right.
    + intros [H | H]; [discriminate | now injection H].
  - split; [discriminate | intros [H | H]; discriminate].
Qed.

Lemma shape_matches s :
  generated_shape s -> Re.re_match GENERATED_NAME s = true.
Proof.
  intros (p & h & tail & -> & Hp & Hl & Hh & Ht).
  unfold Re.re_match, GENERATED_NAME. cbn [Re.match_here].
  apply star_match_append; [exact Hp|].
  change ("-" ++ h ++ "-cinder" ++ tail)%string
    with (String dash (h ++ "-cinder" ++ tail)).
  cbn [Re.match_here].
  change (Re.atom_ok (Re.Lit dash) dash) with true. cbn [andb].
  rewrite <- Hl at 1. rewrite rep_match_append by exact Hh.
  rewrite lits_match. cbn [Re.match_here]. rewrite andb_true_r.
  now apply at_eol_inv.
Qed.

Lemma matches_shape s :
  Re.re_match GENERATED_NAME s = true -> generated_shape s.
Proof.
  unfold Re.re_match, GENERATED_NAME. cbn [Re.match_here]. intros H.
  apply star_match_inv in H as (p & r & -> & Hp & H).
  destruct r as [|c r]; [discriminate|].
  cbn [Re.match_here] in H.
  apply andb_true_iff in H as [Hc H].
  cbn [Re.atom_ok] in Hc. apply Ascii.eqb_eq in Hc. subst c.
  apply rep_match_inv in H as (h & r' & -> & Hl & Hh & H).
  apply lits_match_inv in H as (tail & -> & H).
  cbn [Re.match_here] in H. rewrite andb_true_r in H.
  apply at_eol_inv in H.
  exists p, h, tail. repeat split; assumption.
Qed.

(** X9.  [GENERATED_NAME.match] accepts exactly the names made of any
    text without a newline, ['-'], 32 lower-case hexadecimal digits and
    ["-cinder"], optionally followed by one final newline; such a name has
    at least 40 characters. *)
Theorem generated_name_pattern s :
  (Re.re_match GENERATED_NAME s = true <-> generated_shape s)
  /\ (Re.re_match GENERATED_NAME s = true -> 40 <= String.length s).
Proof.
  split; [split; [apply matches_shape | apply shape_matches]|].
  intros H. apply matches_shape in H as (p & h & tail & -> & _ & Hl & _).
  rewrite !length_append, Hl. simpl. lia.
Qed.

(** *** The generated host names *)

Lemma hex_lower_name_char c : hex_lower c = true -> name_char c = true.
Proof.
  destruct c as [[] [] [] [] [] [] [] []]; vm_compute;
    intros H; first [reflexivity | exact H].
Qed.

Lemma lstrip_empty ch (s : string) :
  lstrip ch s = "" <-> all_chars (fun c => Ascii.eqb c ch) s = true.
Proof.
  induction s as [|c s IH]; simpl; [intuition|].
  destruct (Ascii.eqb c ch); simpl; [exact IH|].
  split; discriminate.
Qed.

Lemma sub1_all_dash (s : string) :
  all_chars (fun c => Ascii.eqb c dash)
    (Re.sub1 INVALID_CHARACTERS dash s)
  = all_chars (fun c => negb (alnum c)) s.
Proof.
  induction s as [|c s IH]; cbn [Re.sub1 all_chars]; [reflexivity|].
  rewrite IH. f_equal. unfold alnum, name_char.
  destruct (Re.atom_ok INVALID_CHARACTERS c); cbn [negb andb].
  - apply Ascii.eqb_refl.
  - now rewrite negb_involutive.
Qed.

Lemma starts_with_append ch (p rest : string) :
  starts_with ch p = false ->
  starts_with ch (p ++ String ch rest) = match p with "" => true | _ => false end.
Proof.
  destruct p as [|c p]; simpl; intros H; [apply Ascii.eqb_refl | exact H].
Qed.

(** X10.  Every name that [_generate_purity_host_name] returns has
    between 40 and 63 characters, all of them in [[-a-zA-Z0-9]]; it begins
    with ['-'] exactly when the first 23 characters of the input hold no
    letter and no digit (the empty input, for one). *)
Theorem generated_host_name_bounds (name : string) (u : N) :
  let r := _generate_purity_host_name name u in
  40 <= String.length r <= 63
  /\ all_chars name_char r = true
  /\ (starts_with dash r = true <->
      all_chars (fun c => negb (alnum c)) (substring 0 23 name) = true).
Proof.
  set (q := Re.sub1 INVALID_CHARACTERS dash (substring 0 23 name)).
  assert (E : _generate_purity_host_name name u
              = (lstrip dash q ++ "-" ++ uuid_hex u ++ "-cinder")%string).
  { unfold _generate_purity_host_name, q.
    match goal with
    | |- context [if ?b then ?x else ?y] =>
        replace (if b then x else y) with (substring 0 23 name)
    end; [reflexivity|].
    destruct (Nat.ltb_spec 23 (String.length name)); [reflexivity|].
    now apply substring_0_all. }
  cbv zeta. rewrite E. split; [|split].
  - rewrite !length_append. unfold uuid_hex. rewrite length_hex_digits.
    pose proof (length_lstrip dash q) as H1. unfold q in H1 at 2.
    rewrite length_sub1 in H1.
    pose proof (length_substring_0 23 name). simpl. lia.
  - rewrite !all_chars_append.
    rewrite (all_chars_lstrip _ _ _ (sub1_name_chars (substring 0 23 name))).
    unfold uuid_hex.
    rewrite (all_chars_impl _ _ _ hex_lower_name_char
               (hex_digits_lower 32 u)).
    reflexivity.
  - change ("-" ++ uuid_hex u ++ "-cinder")%string
      with (String dash (uuid_hex u ++ "-cinder")).
    rewrite starts_with_append by apply lstrip_starts_with.
    rewrite <- sub1_all_dash. fold q. rewrite <- lstrip_empty.
    destruct (lstrip dash q); split; congruence.
Qed.

Lemma generated_name_has_shape (name : string) (u : N) :
  Re.re_match GENERATED_NAME (_generate_purity_host_name name u) = true.
Proof.
  apply shape_matches.
  exists (lstrip dash
            (Re.sub1 INVALID_CHARACTERS dash
               (if (23 <? String.length name)%nat then substring 0 23 name
                else name))),
    (uuid_hex u), "".
  split; [reflexivity|]. split; [|split; [|split]].
  - apply (all_chars_impl name_char); [apply name_char_not_newline|].
    apply all_chars_lstrip, sub1_name_chars.
  - apply length_hex_digits.
  - apply hex_digits_lower.
  - now left.
Qed.

(** *** One UUID, one name *)

Lemma hex_digit_inj n m :
  (n < 16)%N -> (m < 16)%N -> hex_digit n = hex_digit m -> n = m.
Proof.
  intros Hn Hm H. apply (f_equal N_of_ascii) in H. unfold hex_digit in H.
  rewrite !N_ascii_embedding in H.
  - destruct (N.ltb_spec n 10), (N.ltb_spec m 10); lia.
  - destruct (N.ltb_spec m 10); lia.
  - destruct (N.ltb_spec n 10); lia.
Qed.

Lemma hex_digits_inj k :
  forall u v,
    hex_digits k u = hex_digits k v ->
    (u mod 16 ^ N.of_nat k = v mod 16 ^ N.of_nat k)%N.
Proof.
  induction k as [|k IH]; intros u v H.
  - simpl. now rewrite !N.mod_1_r.
  - cbn [hex_digits] in H.
    apply append_inv_length in H as [H1 H2];
      [|now rewrite !length_hex_digits].
    injection H2 as H2.
    apply hex_digit_inj in H2; try (apply N.mod_lt; discriminate).
    apply IH in H1.
    rewrite Nat2N.inj_succ, N.pow_succ_r'.
    rewrite !N.Div0.mod_mul_r. now rewrite H1, H2.
Qed.

(** X11.  For one input, two different UUIDs (128-bit values) give two
    different host names. *)
Theorem distinct_uuids_distinct_names (name : string) (u v : N) :
  (u < 2 ^ 128)%N -> (v < 2 ^ 128)%N -> u <> v ->
  _generate_purity_host_name name u <> _generate_purity_host_name name v.
Proof.
  intros Hu Hv Hne H. apply Hne. unfold _generate_purity_host_name in H.
  cbv zeta in H. rewrite <- !(append_assoc _ "-") in H.
  apply append_inv_head in H.
  apply append_inv_length in H as [H _];
    [|unfold uuid_hex; now rewrite !length_hex_digits].
  apply hex_digits_inj in H.
  change (16 ^ N.of_nat 32)%N with (2 ^ 128)%N in H.
  now rewrite !N.mod_small in H.
Qed.

End NameFacts.

(** ** The driver: hosts, connections and deletion *)

Module PureDriverMore.
Import Py PyNotations Spec MoreSpec Pure Pure.PureISCSIDriver.
Import PureDriverFacts NameFacts.

Ltac run :=
  cbv beta iota zeta delta
    [bind try_except ask ret raise save_and_reraise_exception kwargs_code
     iterate fst snd].

(** *** Finding the host of a connector *)

Lemma get_host_loop_find initiator hosts (h : list call) :
  forallb host_record hosts = true ->
  _get_host_loop initiator hosts h
  = (Return (find (lists_initiator initiator) hosts), h).
Proof.
  induction hosts as [|host hosts IH]; simpl; intros H; [reflexivity|].
  apply andb_true_iff in H as [Hh Hs].
  destruct host as [| | | | |d]; try discriminate. simpl in *.
  unfold bind, getitem.
  destruct (assoc "iqn" d) as [[| | | |l|]|]; try discriminate.
  unfold ret, contains.
  destruct (existsb (fun y => eq_str y initiator) l);
    [reflexivity | now apply IH].
Qed.

Lemma get_host_run array c h hosts :
  array h ListHosts = Return (JList hosts) ->
  forallb host_record hosts = true ->
  _get_host array c h
  = (Return (find (lists_initiator (c_initiator c)) hosts),
     h ++ [ListHosts]).
Proof.
  intros Hl Hw. unfold _get_host. run. rewrite Hl. cbn [iter_items].
  now rewrite (get_host_loop_find _ _ _ Hw).
Qed.

(** X12.  [_get_host] lists the hosts once and returns the first host
    record whose ["iqn"] list holds the connector's initiator, or [None] when
    no record does. *)
Theorem get_host_first_match array c h hosts :
  array h ListHosts = Return (JList hosts) ->
  forallb host_record hosts = true ->
  _get_host array c h
  = (Return (find (lists_initiator (c_initiator c)) hosts),
     h ++ [ListHosts]).
Proof. apply get_host_run. Qed.

Lemma host_record_truthy host : host_record host = true -> truthy host = true.
Proof.
  destruct host as [| | | | |d]; try discriminate.
  destruct d as [|kv d]; [discriminate | reflexivity].
Qed.

Lemma found_host_record initiator hosts host :
  forallb host_record hosts = true ->
  find (lists_initiator initiator) hosts = Some host ->
  truthy host = true.
Proof.
  intros Hw Hf. apply find_some in Hf as [Hin _].
  rewrite forallb_forall in Hw. apply host_record_truthy. now apply Hw.
Qed.

Lemma name_of_getitem host name (h : list call) :
  name_of host = Some name ->
  (n <- getitem host "name" ;; as_str n) h = (Return name, h).
Proof.
  destruct host as [| | | | |d]; try discriminate. simpl.
  unfold bind, getitem.
  destruct (assoc "name" d) as [[| | |s| |]|]; try discriminate.
  now intros [= ->].
Qed.

(** The tail of [_connect] when the connect call returns. *)
Lemma connect_returns array v c u h host_name h1 connection :
  _connect_host_name array c u h = (Return host_name, h1) ->
  array h1 (ConnectHost host_name (_get_vol_name v)) = Return connection ->
  _connect array v c u h
  = (if truthy connection then Return connection
     else Raise (PureDriverException no_connection_message),
     h1 ++ [ConnectHost host_name (_get_vol_name v)]).
Proof.
  intros Hn Hc. unfold _connect. unfold bind at 1. rewrite Hn.
  run. rewrite Hc. now destruct (truthy connection).
Qed.

(** X13.  When no listed host holds the initiator, [_connect] creates
    a host under the generated name with the initiator as its only IQN and
    connects the volume to it; it returns the connection the array answers,
    or raises [PureDriverException] when that answer is empty.  The name of
    the host it creates matches [GENERATED_NAME]. *)
Theorem connect_creates_host_when_unknown array v c u h hosts created
  connection :
  let name := _generate_purity_host_name (c_host c) u in
  let h2 := h ++ [ListHosts; CreateHost name [c_initiator c]] in
  array h ListHosts = Return (JList hosts) ->
  forallb host_record hosts = true ->
  find (lists_initiator (c_initiator c)) hosts = None ->
  array (h ++ [ListHosts]) (CreateHost name [c_initiator c])
    = Return created ->
  array h2 (ConnectHost name (_get_vol_name v)) = Return connection ->
  _connect array v c u h
  = (if truthy connection then Return connection
     else Raise (PureDriverException no_connection_message),
     h2 ++ [ConnectHost name (_get_vol_name v)])
  /\ Re.re_match GENERATED_NAME name = true.
Proof.
  intros name h2 Hl Hw Hf Hcr Hc. split; [|apply generated_name_has_shape].
  apply connect_returns; [|exact Hc].
  unfold _connect_host_name. unfold bind at 1.
  rewrite (get_host_run _ _ _ _ Hl Hw), Hf. run. fold name.
  rewrite Hcr. unfold h2. now rewrite <- app_assoc.
Qed.

(** X14.  When a listed host holds the initiator, [_connect] connects
    the volume to the first such host under its own name and creates no
    host. *)
Theorem connect_reuses_existing_host array v c u h hosts host name
  connection :
  array h ListHosts = Return (JList hosts) ->
  forallb host_record hosts = true ->
  find (lists_initiator (c_initiator c)) hosts = Some host ->
  name_of host = Some name ->
  array (h ++ [ListHosts]) (ConnectHost name (_get_vol_name v))
    = Return connection ->
  _connect array v c u h
  = (if truthy connection then Return connection
     else Raise (PureDriverException no_connection_message),
     h ++ [ListHosts; ConnectHost name (_get_vol_name v)]).
Proof.
  intros Hl Hw Hf Hn Hc.
  rewrite (connect_returns array v c u h name (h ++ [ListHosts]) connection);
    [now rewrite <- app_assoc | | exact Hc].
  unfold _connect_host_name. unfold bind at 1.
  rewrite (get_host_run _ _ _ _ Hl Hw), Hf.
  rewrite (found_host_record _ _ _ Hw Hf).
  now apply name_of_getitem.
Qed.

(** X15.  A failure of the connect call that is not the "Connection
    already exists" conflict (a [PureAPIException] with another code or
    another message, or another exception) is raised by [_connect] as it
    is, and the connected hosts are not listed. *)
Theorem connect_passes_other_errors_on array v c u h host_name h1 :
  _connect_host_name array c u h = (Return host_name, h1) ->
  let attempt := ConnectHost host_name (_get_vol_name v) in
  (forall code msg,
     array h1 attempt = Raise (PureAPIException (Some code) msg) ->
     (code =? 400)%Z && str_in "Connection already exists" msg = false ->
     _connect array v c u h
     = (Raise (PureAPIException (Some code) msg), h1 ++ [attempt]))
  /\ (forall e,
        array h1 attempt = Raise e ->
        (forall code msg, e <> PureAPIException code msg) ->
        _connect array v c u h = (Raise e, h1 ++ [attempt])).
Proof.
  intros Hn attempt. split.
  - intros code msg Hc Hno. unfold _connect. unfold bind at 1. rewrite Hn.
    run. fold attempt. rewrite Hc. now rewrite Hno.
  - intros e Hc Hne. unfold _connect. unfold bind at 1. rewrite Hn.
    run. fold attempt. rewrite Hc.
    destruct e as [code msg | | | | |]; try reflexivity.
    now destruct (Hne code msg).
Qed.

(** X16.  [terminate_connection] returns without any further call
    when no listed host holds the initiator; otherwise it does what
    [_disconnect_host] does for the first host that holds it. *)
Theorem terminate_connection_by_initiator array v c h hosts :
  array h ListHosts = Return (JList hosts) ->
  forallb host_record hosts = true ->
  (find (lists_initiator (c_initiator c)) hosts = None ->
   terminate_connection array v c h = (Return tt, h ++ [ListHosts]))
  /\ (forall host name,
        find (lists_initiator (c_initiator c)) hosts = Some host ->
        name_of host = Some name ->
        terminate_connection array v c h
        = _disconnect_host array name (_get_vol_name v) (h ++ [ListHosts])).
Proof.
  intros Hl Hw. split.
  - intros Hf. unfold terminate_connection. unfold bind at 1.
    now rewrite (get_host_run _ _ _ _ Hl Hw), Hf.
  - intros host name Hf Hn. unfold terminate_connection. unfold bind at 1.
    rewrite (get_host_run _ _ _ _ Hl Hw), Hf.
    rewrite (found_host_record _ _ _ Hw Hf).
    unfold bind at 1. unfold bind at 1.
    destruct host as [| | | | |d]; try discriminate. simpl in Hn.
    unfold getitem.
    destruct (assoc "name" d) as [[| | |s| |]|]; try discriminate.
    injection Hn as ->. reflexivity.
Qed.

(** *** [delete_volume]: the hosts first, the volume last *)

Lemma disconnect_host_calls array host vol h :
  exists t,
    snd (_disconnect_host array host vol h) = h ++ DisconnectHost host vol :: t
    /\ forallb host_call t = true.
Proof.
  destruct (disconnect_tolerated (array h (DisconnectHost host vol))) eqn:T.
  - rewrite (disconnect_host_run _ _ _ _ T).
    destruct (Re.re_match GENERATED_NAME host).
    + destruct (array _ (ListHostConnections host true)) as [conns | e |].
      * destruct (truthy conns).
        -- exists [ListHostConnections host true]. simpl.
           now rewrite <- app_assoc.
        -- exists [ListHostConnections host true; DeleteHost host].
           destruct (array _ (DeleteHost host)); simpl;
             now rewrite <- !app_assoc.
      * exists [ListHostConnections host true]. simpl.
        now rewrite <- app_assoc.
      * exists [ListHostConnections host true]. simpl.
        now rewrite <- app_assoc.
    + exists []. now split.
  - exists []. split; [|reflexivity]. now apply disconnect_step_fatal.
Qed.

Lemma disconnect_all_calls array vol items :
  forall h r h',
    disconnect_all array items vol h = (r, h') ->
    exists t,
      h' = h ++ t
      /\ forallb host_call t = true
      /\ (r = Return tt ->
          forall item, In item items ->
            exists name,
              host_is name item = true /\ In (DisconnectHost name vol) t).
Proof.
  induction items as [|item items IH]; intros h r h' H.
  - injection H as <- <-. exists []. rewrite app_nil_r.
    repeat split. intros _ i [].
  - cbn [disconnect_all] in H.
    cbv beta iota zeta delta [bind getitem as_str ret raise] in H.
    assert (Hstop : forall e, (Raise e, h) = (r, h') ->
      exists t,
        h' = h ++ t /\ forallb host_call t = true
        /\ (r = Return tt ->
            forall i, In i (item :: items) ->
              exists name,
                host_is name i = true /\ In (DisconnectHost name vol) t)).
    { intros e [= <- <-]. exists []. rewrite app_nil_r.
      repeat split. discriminate. }
    destruct item as [| | | | |d]; try (now apply (Hstop _ H)).
    destruct (assoc "host" d) as [x|] eqn:Ex; [|now apply (Hstop _ H)].
    destruct x as [| | |name| |]; try (now apply (Hstop _ H)).
    clear Hstop.
    destruct (disconnect_host_calls array name vol h) as (t1 & H1 & W1).
    destruct (_disconnect_host array name vol h) as [r1 h1] eqn:E1.
    simpl in H1. subst h1.
    destruct r1 as [[] | e |].
    + destruct (IH _ _ _ H) as (t2 & -> & W2 & D2).
      exists (DisconnectHost name vol :: t1 ++ t2).
      rewrite <- app_assoc. split; [reflexivity|]. split.
      * simpl. rewrite forallb_app. now rewrite W1, W2.
      * intros Hr i [Hi | Hi].
        -- subst i. exists name. split; [|now left].
           simpl. rewrite Ex. simpl. apply String.eqb_refl.
        -- destruct (D2 Hr i Hi) as (n & Hn & Hin).
           exists n. split; [exact Hn|]. right. apply in_or_app. now right.
    + injection H as <- <-. exists (DisconnectHost name vol :: t1).
      repeat split; [exact W1 | discriminate].
    + injection H as <- <-. exists (DisconnectHost name vol :: t1).
      repeat split; [exact W1 | discriminate].
Qed.

Lemma delete_volume_history array v h :
  snd (delete_volume array v h)
  = snd (delete_volume_body array (_get_vol_name v) h).
Proof.
  unfold delete_volume. cbv beta iota zeta delta [try_except].
  destruct (delete_volume_body array (_get_vol_name v) h) as [[[] | e |] h1];
    try reflexivity.
  destruct e as [[code|] msg | | | | |]; try reflexivity.
  run. now destruct ((code =? 400)%Z && str_in "Volume does not exist" msg).
Qed.

Lemma host_calls_no_destroy t vol :
  forallb host_call t = true -> ~ In (DestroyVolume vol) t.
Proof.
  intros H Hin. rewrite forallb_forall in H. specialize (H _ Hin).
  discriminate H.
Qed.

(** X17.  Whenever [delete_volume] issues the call that destroys the
    volume, it has before that issued a disconnect call for every host that
    the listing of the volume's hosts reported; the destroy call is issued
    once and is its last call. *)
Theorem delete_volume_disconnects_first array v h hosts items :
  let vol_name := _get_vol_name v in
  let out := delete_volume array v h in
  array h (ListVolumeHosts vol_name) = Return hosts ->
  iter_items hosts = Some items ->
  In (DestroyVolume vol_name) (issued h out) ->
  exists t,
    issued h out = ListVolumeHosts vol_name :: t ++ [DestroyVolume vol_name]
    /\ forallb host_call t = true
    /\ forall item, In item items ->
         exists name,
           host_is name item = true /\ In (DisconnectHost name vol_name) t.
Proof.
  intros vol_name out Hl Hi. unfold out, issued.
  rewrite delete_volume_history. fold vol_name.
  unfold delete_volume_body. run. rewrite Hl, Hi.
  destruct (disconnect_all array items vol_name _) as [r h1] eqn:E.
  destruct (disconnect_all_calls array vol_name items _ _ _ E)
    as (t & -> & Wt & Dt).
  destruct r as [[] | e |].
  - intros _. exists t.
    destruct (array _ (DestroyVolume vol_name)); cbn [snd];
      rewrite <- !app_assoc, skipn_history; (split; [reflexivity|]);
      (split; [exact Wt | now apply Dt]).
  - cbn [snd]. rewrite <- app_assoc, skipn_history. intros [H | H];
      [discriminate | now apply host_calls_no_destroy in H].
  - cbn [snd]. rewrite <- app_assoc, skipn_history. intros [H | H];
      [discriminate | now apply host_calls_no_destroy in H].
Qed.

End PureDriverMore.

(** ** The driver: snapshots and copies *)

Module VolumeFacts.
Import Py PyNotations Spec MoreSpec Pure PureVolumeOps NameFacts.
Import PureDriverFacts.

Ltac run :=
  cbv beta iota zeta delta [bind ask ret raise fst snd].

(** *** Splitting a snapshot name *)

Lemma split_on_free sep (s : string) :
  has_char sep s = false -> split_on sep s = [s].
Proof.
  induction s as [|c s IH]; simpl; [reflexivity|].
  intros H. apply orb_false_iff in H as [Hc Hs].
  now rewrite Hc, (IH Hs).
Qed.

Lemma split_on_more sep (s : string) :
  has_char sep s = true -> exists a b rest, split_on sep s = a :: b :: rest.
Proof.
  induction s as [|c s IH]; simpl; [discriminate|].
  destruct (Ascii.eqb c sep) eqn:E; simpl.
  - intros _. destruct (split_on sep s) as [|x l] eqn:S.
    + destruct s; simpl in S; [discriminate|].
      destruct (Ascii.eqb a sep); [discriminate|].
      destruct (split_on sep s); discriminate.
    + now exists "", x, l.
  - intros H. destruct (IH H) as (a & b & rest & ->).
    now exists (String c a), b, rest.
Qed.

Lemma split_on_first sep (s : string) :
  exists a rest, split_on sep s = a :: rest.
Proof.
  induction s as [|c s IH]; simpl; [now exists "", []|].
  destruct (Ascii.eqb c sep); [now eexists _, _|].
  destruct IH as (a & rest & ->). now eexists _, _.
Qed.

Lemma split_on_append sep (a b : string) :
  split_on sep (a ++ String sep b) = split_on sep a ++ split_on sep b.
Proof.
  induction a as [|c a IH]; simpl.
  - now rewrite Ascii.eqb_refl.
  - rewrite IH. destruct (Ascii.eqb c sep); [reflexivity|].
    destruct (split_on_first sep a) as (x & rest & ->). reflexivity.
Qed.

Lemma has_char_append ch (a b : string) :
  has_char ch (a ++ b) = has_char ch a || has_char ch b.
Proof.
  induction a as [|c a IH]; simpl; [reflexivity|].
  now rewrite IH, orb_assoc.
Qed.

Lemma snap_name_split (s : snapshot) :
  split_on "."%char (_get_snap_name s)
  = split_on "."%char (s_volume_name s ++ "-cinder")
    ++ split_on "."%char (s_name s).
Proof.
  unfold _get_snap_name.
  change ("-cinder." ++ s_name s)%string
    with ("-cinder" ++ String "."%char (s_name s))%string.
  rewrite <- append_assoc. apply split_on_append.
Qed.

(** X18.  When neither the volume name nor the snapshot name holds a
    dot, [create_snapshot] asks the array for a snapshot of
    [<volume name>-cinder] with the snapshot name as suffix; when one of them
    holds a dot, the unpacking of the split name fails with ValueError and
    the array is not called. *)
Theorem create_snapshot_splits_name array (s : snapshot) h :
  create_snapshot array s h
  = if has_char "."%char (s_volume_name s) || has_char "."%char (s_name s)
    then (Raise (PyError "ValueError"), h)
    else
      (ask array (CreateSnapshot (s_volume_name s ++ "-cinder") (s_name s))
       ;;; ret tt) h.
Proof.
  unfold create_snapshot. rewrite snap_name_split.
  destruct (has_char "."%char (s_volume_name s)) eqn:Hv.
  - assert (Hd : has_char "."%char (s_volume_name s ++ "-cinder") = true).
    { now rewrite has_char_append, Hv. }
    destruct (split_on_more _ _ Hd) as (a & b & rest & ->).
    destruct (split_on_first "."%char (s_name s)) as (x & l & ->).
    simpl. now destruct rest.
  - rewrite (split_on_free "."%char (s_volume_name s ++ "-cinder"))
      by now rewrite has_char_append, Hv.
    destruct (has_char "."%char (s_name s)) eqn:Hn; cbn [orb].
    + destruct (split_on_more _ _ Hn) as (a & b & rest & ->). reflexivity.
    + now rewrite (split_on_free _ _ Hn).
Qed.

(** *** Copies are extended, never cut *)

Lemma extend_if_needed_calls array vol_name src_size vol_size h c :
  In c (issued h (_extend_if_needed array vol_name src_size vol_size h)) ->
  c = ExtendVolume vol_name (vol_size * Gi)%Z /\ (src_size < vol_size)%Z.
Proof.
  unfold _extend_if_needed.
  destruct (Z.gtb_spec vol_size src_size) as [Hgt | Hle].
  - run. destruct (array h _); rewrite issued_app; intros [<- | []];
      (split; [reflexivity | lia]).
  - unfold ret. unfold issued. simpl.
    replace h with (h ++ []) at 2 by apply app_nil_r.
    rewrite skipn_history. intros [].
Qed.

Lemma copy_then_extend array source dest src_size vol_size h c :
  In c (issued h ((ask array (CopyVolume source dest) ;;;
                   _extend_if_needed array dest src_size vol_size) h)) ->
  c = CopyVolume source dest
  \/ (c = ExtendVolume dest (vol_size * Gi)%Z
      /\ (src_size * Gi < vol_size * Gi)%Z
      /\ exists r, array h (CopyVolume source dest) = Return r).
Proof.
  run. destruct (array h (CopyVolume source dest)) as [r | e |] eqn:E.
  - destruct (_extend_if_needed array dest src_size vol_size
                (h ++ [CopyVolume source dest])) as [r2 h2] eqn:E2.
    pose proof (extend_if_needed_calls array dest src_size vol_size
                  (h ++ [CopyVolume source dest])) as Hx.
    rewrite E2 in Hx. unfold issued in *. cbn [snd] in *.
    assert (Hh : exists t, h2 = (h ++ [CopyVolume source dest]) ++ t).
    { unfold _extend_if_needed in E2.
      destruct (vol_size >? src_size)%Z.
      - cbv beta iota zeta delta [bind ask ret fst snd] in E2.
        destruct (array _ (ExtendVolume _ _)); injection E2 as <- <-;
          now eexists.
      - injection E2 as <- <-. exists []. now rewrite app_nil_r. }
    destruct Hh as (t & ->). rewrite skipn_history in Hx.
    rewrite <- app_assoc, skipn_history. intros [<- | Hin]; [now left|].
    right. destruct (Hx c Hin) as [-> Hlt].
    split; [reflexivity|]. split; [unfold Gi; lia | now exists r].
  - cbn [snd]. rewrite issued_app. intros [<- | []]. now left.
  - cbn [snd]. rewrite issued_app. intros [<- | []]. now left.
Qed.

(** X19.  [create_volume_from_snapshot] and [create_cloned_volume]
    issue nothing but the copy call and the call that extends the new
    volume to its size in GiB; the latter is issued only after the copy has
    returned and only when the new size is strictly larger than the size of
    the source. *)
Theorem copies_are_only_extended array (v : volume) h :
  (forall (s : snapshot) c,
     In c (issued h (create_volume_from_snapshot array v s h)) ->
     c = CopyVolume (_get_snap_name s) (_get_vol_name v)
     \/ (c = ExtendVolume (_get_vol_name v) (v_size v * Gi)%Z
         /\ (s_volume_size s * Gi < v_size v * Gi)%Z
         /\ exists r,
              array h (CopyVolume (_get_snap_name s) (_get_vol_name v))
              = Return r))
  /\ (forall (src_vref : volume) c,
        In c (issued h (create_cloned_volume array v src_vref h)) ->
        c = CopyVolume (_get_vol_name src_vref) (_get_vol_name v)
        \/ (c = ExtendVolume (_get_vol_name v) (v_size v * Gi)%Z
            /\ (v_size src_vref * Gi < v_size v * Gi)%Z
            /\ exists r,
                 array h (CopyVolume (_get_vol_name src_vref)
                            (_get_vol_name v))
                 = Return r)).
Proof.
  split; intros x c; apply copy_then_extend.
Qed.

End VolumeFacts.

(** ** The driver: the iSCSI target port *)

Module PortFacts.
Import Py PyNotations Spec MoreSpec Pure PureISCSIPorts.

Ltac run :=
  cbv beta iota zeta delta
    [bind try_except ask ret raise get_iscsi_port set_iscsi_port iterate
     fst snd].

Lemma port_record_entries port :
  port_record port = true ->
  exists d iqn name portal,
    port = JDict d /\ assoc "iqn" d = Some iqn
    /\ assoc "name" d = Some name /\ assoc "portal" d = Some portal.
Proof.
  destruct port as [| | | | |d]; try discriminate. unfold port_record.
  destruct (assoc "iqn" d) as [iqn|] eqn:E1; [|discriminate].
  destruct (assoc "name" d) as [name|] eqn:E2; [|discriminate].
  destruct (assoc "portal" d) as [portal|] eqn:E3; [|discriminate].
  intros _. exists d, iqn, name, portal. repeat split; assumption.
Qed.

Lemma iscsi_enabled_filter ports (w : pstate) :
  forallb port_record ports = true ->
  iscsi_enabled ports w = (Return (filter iscsi_port ports), w).
Proof.
  induction ports as [|port ports IH]; simpl; intros H; [reflexivity|].
  apply andb_true_iff in H as [Hp Hs].
  destruct (port_record_entries _ Hp) as (d & iqn & name & portal & -> & Hi
                                         & _ & _).
  unfold bind, getitem. rewrite Hi. unfold ret at 1.
  rewrite (IH Hs). simpl. rewrite Hi. reflexivity.
Qed.

Lemma filter_records ports :
  forallb port_record ports = true ->
  forallb port_record (filter iscsi_port ports) = true.
Proof.
  rewrite !forallb_forall. intros H x Hx.
  apply filter_In in Hx as [Hx _]. now apply H.
Qed.

(** The loop when [self._iscsi_port] is a port record. *)
Lemma choose_loop_run env reachable current :
  discovers reachable env ->
  port_record current = true ->
  forall ports h,
    forallb port_record ports = true ->
    choose_loop env ports (current, h)
    = (match find (fun port => reachable (portal_of port)) ports with
       | Some port => Return port
       | None => Raise (PureDriverException no_port_message)
       end, (current, h ++ tried reachable ports)).
Proof.
  intros Henv Hcur.
  destruct (port_record_entries _ Hcur) as (dc & ic & nc & pc & -> & _ & Hnc
                                           & Hpc).
  induction ports as [|port ports IH]; intros h H.
  - simpl. now rewrite app_nil_r.
  - simpl in H. apply andb_true_iff in H as [Hp Hs].
    destruct (port_record_entries _ Hp) as (d & iqn & name & portal & -> & _
                                           & Hn & Hpo).
    cbn [choose_loop find tried]. unfold portal_of, entry. rewrite Hpo.
    unfold getitem. rewrite Hpo, Hn. run. rewrite Henv.
    destruct (reachable portal).
    + reflexivity.
    + cbn [is_process_execution_error]. rewrite String.eqb_refl.
      rewrite Hnc, Hpc.
      rewrite (IH (h ++ [Discovery portal]) Hs).
      now rewrite <- app_assoc.
Qed.

Lemma choose_port_run env reachable current ports h :
  discovers reachable env ->
  port_record current = true ->
  env h ListPorts = Return (JList ports) ->
  forallb port_record ports = true ->
  _choose_target_iscsi_port env (current, h)
  = (match find (fun port => reachable (portal_of port))
             (filter iscsi_port ports) with
     | Some port => Return port
     | None => Raise (PureDriverException no_port_message)
     end,
     (current, h ++ ListPorts :: tried reachable (filter iscsi_port ports))).
Proof.
  intros Henv Hcur Hl Hw. unfold _choose_target_iscsi_port.
  unfold bind at 1, ask at 1. cbn [fst snd]. rewrite Hl.
  unfold bind at 1, iterate. cbn [iter_items]. unfold ret at 1.
  unfold bind at 1. rewrite (iscsi_enabled_filter _ _ Hw).
  rewrite (choose_loop_run env reachable current Henv Hcur _ _
             (filter_records _ Hw)).
  now rewrite <- app_assoc.
Qed.

(** X20.  With a port on record in [self._iscsi_port],
    [_choose_target_iscsi_port] runs the discovery on the iSCSI-enabled
    ports in the order of the listing, returns the first that answers and
    tries none after it; when none answers it raises
    [PureDriverException]. *)
Theorem choose_port_first_reachable env reachable current ports h :
  discovers reachable env ->
  port_record current = true ->
  env h ListPorts = Return (JList ports) ->
  forallb port_record ports = true ->
  _choose_target_iscsi_port env (current, h)
  = (match find (fun port => reachable (portal_of port))
             (filter iscsi_port ports) with
     | Some port => Return port
     | None => Raise (PureDriverException no_port_message)
     end,
     (current, h ++ ListPorts :: tried reachable (filter iscsi_port ports))).
Proof. apply choose_port_run. Qed.

(** X21.  While [self._iscsi_port] is still [None] (as in
    [do_setup]), [_choose_target_iscsi_port] tries the first iSCSI-enabled
    port only: it returns that port when the discovery succeeds, and raises
    TypeError when it fails, because the log message of the failure is built
    from [self._iscsi_port]. *)
Theorem choose_port_at_setup env reachable ports h :
  discovers reachable env ->
  env h ListPorts = Return (JList ports) ->
  forallb port_record ports = true ->
  _choose_target_iscsi_port env (JNull, h)
  = match filter iscsi_port ports with
    | [] =>
        (Raise (PureDriverException no_port_message), (JNull, h ++ [ListPorts]))
    | port :: _ =>
        (if reachable (portal_of port) then Return port
         else Raise (PyError "TypeError"),
         (JNull, h ++ [ListPorts; Discovery (portal_of port)]))
    end.
Proof.
  intros Henv Hl Hw. unfold _choose_target_iscsi_port.
  unfold bind at 1, ask at 1. cbn [fst snd]. rewrite Hl.
  unfold bind at 1, iterate. cbn [iter_items]. unfold ret at 1.
  unfold bind at 1. rewrite (iscsi_enabled_filter _ _ Hw).
  pose proof (filter_records _ Hw) as Hf.
  destruct (filter iscsi_port ports) as [|port rest]; [reflexivity|].
  simpl in Hf. apply andb_true_iff in Hf as [Hp _].
  destruct (port_record_entries _ Hp) as (d & iqn & name & portal & -> & _
                                         & Hn & Hpo).
  cbn [choose_loop]. unfold portal_of, entry. rewrite Hpo.
  unfold getitem. rewrite Hpo, Hn. run. rewrite Henv.
  destruct (reachable portal).
  - now rewrite <- app_assoc.
  - cbn [is_process_execution_error]. rewrite String.eqb_refl.
    now rewrite <- app_assoc.
Qed.

Lemma get_target_port_run env reachable current h :
  discovers reachable env ->
  port_record current = true ->
  _get_target_iscsi_port env (current, h)
  = if reachable (portal_of current) then
      (Return current, (current, h ++ [Discovery (portal_of current)]))
    else
      match _choose_target_iscsi_port env
              (current, h ++ [Discovery (portal_of current)]) with
      | (Return port, (_, h')) => (Return port, (port, h'))
      | (Raise e, w) => (Raise e, w)
      | (OutOfFuel, w) => (OutOfFuel, w)
      end.
Proof.
  intros Henv Hcur.
  destruct (port_record_entries _ Hcur) as (dc & ic & nc & pc & -> & _ & Hnc
                                           & Hpc).
  unfold _get_target_iscsi_port, portal_of, entry. rewrite Hpc.
  unfold getitem. run. rewrite Hpc, Henv.
  destruct (reachable pc); [reflexivity|].
  cbn [is_process_execution_error]. rewrite String.eqb_refl.
  rewrite Hnc. run. rewrite Hpc. run.
  destruct (_choose_target_iscsi_port env _) as [[port | e |] [p' h']];
    reflexivity.
Qed.

Lemma get_target_port_keeps_or_replaces_aux env reachable current h :
  discovers reachable env ->
  port_record current = true ->
  let probe := Discovery (portal_of current) in
  (reachable (portal_of current) = true ->
   _get_target_iscsi_port env (current, h)
   = (Return current, (current, h ++ [probe])))
  /\ (forall ports,
        reachable (portal_of current) = false ->
        env (h ++ [probe]) ListPorts = Return (JList ports) ->
        forallb port_record ports = true ->
        let h' := h ++ probe :: ListPorts
                    :: tried reachable (filter iscsi_port ports) in
        _get_target_iscsi_port env (current, h)
        = match find (fun port => reachable (portal_of port))
                  (filter iscsi_port ports) with
          | Some port => (Return port, (port, h'))
          | None =>
              (Raise (PureDriverException no_port_message), (current, h'))
          end).
Proof.
  intros Henv Hcur probe. split.
  - intros Hr. rewrite (get_target_port_run _ _ _ _ Henv Hcur).
    now rewrite Hr.
  - intros ports Hr Hl Hw h'.
    rewrite (get_target_port_run _ _ _ _ Henv Hcur), Hr. fold probe.
    rewrite (choose_port_run env reachable current ports (h ++ [probe])
               Henv Hcur Hl Hw).
    unfold h'. rewrite <- app_assoc. cbn [app].
    now destruct (find _ _).
Qed.

(** X22.  [_get_target_iscsi_port] returns the port on record after
    one discovery when that port answers, without listing the ports; when it
    does not answer, the first reachable iSCSI-enabled port is returned and
    put on record, and when there is none [PureDriverException] is raised and
    the record is left as it was. *)
Theorem get_target_port_keeps_or_replaces env reachable current h :
  discovers reachable env ->
  port_record current = true ->
  let probe := Discovery (portal_of current) in
  (reachable (portal_of current) = true ->
   _get_target_iscsi_port env (current, h)
   = (Return current, (current, h ++ [probe])))
  /\ (forall ports,
        reachable (portal_of current) = false ->
        env (h ++ [probe]) ListPorts = Return (JList ports) ->
        forallb port_record ports = true ->
        let h' := h ++ probe :: ListPorts
                    :: tried reachable (filter iscsi_port ports) in
        _get_target_iscsi_port env (current, h)
        = match find (fun port => reachable (portal_of port))
                  (filter iscsi_port ports) with
          | Some port => (Return port, (port, h'))
          | None =>
              (Raise (PureDriverException no_port_message), (current, h'))
          end).
Proof. apply get_target_port_keeps_or_replaces_aux. Qed.

(** *** [initialize_connection] *)

(** X23.  When neither the port on record nor any listed port
    answers the discovery, [initialize_connection] raises
    [PureDriverException] before anything is asked of the array: no host is
    created and no volume connected. *)
Theorem initialize_connection_needs_a_port env array v c u reachable current
  ports hp ha :
  discovers reachable env ->
  port_record current = true ->
  reachable (portal_of current) = false ->
  env (hp ++ [Discovery (portal_of current)]) ListPorts
    = Return (JList ports) ->
  forallb port_record ports = true ->
  find (fun port => reachable (portal_of port)) (filter iscsi_port ports)
    = None ->
  initialize_connection env array v c u ((current, hp), ha)
  = (Raise (PureDriverException no_port_message),
     ((current,
       hp ++ Discovery (portal_of current) :: ListPorts
          :: tried reachable (filter iscsi_port ports)), ha)).
Proof.
  intros Henv Hcur Hr Hl Hw Hf. unfold initialize_connection.
  unfold bind at 1, on_ports. cbn [fst snd].
  rewrite (proj2 (get_target_port_keeps_or_replaces_aux env reachable current
                    hp Henv Hcur) ports Hr Hl Hw).
  now rewrite Hf.
Qed.

(** X24.  With a reachable port on record, [initialize_connection]
    answers the iSCSI properties made of the port's IQN and portal and of the
    ["lun"] entry of the connection that [_connect] returned; if the
    connection has no ["lun"] entry, KeyError is raised after the connection
    was made. *)
Theorem initialize_connection_properties env array v c u reachable current
  hp ha d ha' :
  discovers reachable env ->
  port_record current = true ->
  reachable (portal_of current) = true ->
  PureISCSIDriver._connect array v c u ha = (Return (JDict d), ha') ->
  initialize_connection env array v c u ((current, hp), ha)
  = (match assoc "lun" d with
     | Some lun =>
         Return (iscsi_properties (entry "iqn" current) (portal_of current)
                   lun)
     | None => Raise (PyError "KeyError")
     end,
     ((current, hp ++ [Discovery (portal_of current)]), ha')).
Proof.
  intros Henv Hcur Hr Hc. unfold initialize_connection.
  unfold bind at 1, on_ports. cbn [fst snd].
  rewrite (proj1 (get_target_port_keeps_or_replaces_aux env reachable current
                    hp Henv Hcur) Hr).
  cbn [fst snd]. unfold bind at 1, on_array. cbn [fst snd]. rewrite Hc.
  cbn [fst snd].
  destruct (port_record_entries _ Hcur) as (dc & ic & nc & pc & -> & Hic & _
                                           & Hpc).
  unfold portal_of, entry, getitem, bind, ret, raise. rewrite Hic, Hpc.
  now destruct (assoc "lun" d).
Qed.

End PortFacts.

(** ** The further statements at work on concrete arrays *)

Module MoreCases.
Import Py Spec MoreSpec Examples MoreExamples.
Import Pure Pure.FlashArray.
Import FlashArrayMore NameFacts.

Lemma json_reply_intro ct content v :
  str_in "application/json" ct = true ->
  json_reply (Response (Some ct) content (Some v)) v.
Proof. intros H. exists ct, content. now split. Defined.

(** The array lists 1.0, 1.2 and 1.1: version 1.2 is taken. *)
Lemma choose_rest_version_takes_highest_witness :
  _choose_rest_version friendly 1 (session_v13, [])
  = (Return "1.2",
     (set_root_url "https://array/api/" session_v13,
      [probe_of "array"])).
Proof.
  exact (choose_rest_version_takes_highest friendly 0 session_v13 []
           [("version", JList (map JStr ["1.0"; "1.2"; "1.1"]))]
           ["1.0"; "1.2"; "1.1"]
           (json_reply_intro json_type "..." _ eq_refl) eq_refl).
Defined.

(** A request that goes through a renegotiation ends on the root URL of
    version 1.2. *)
Lemma successful_request_keeps_root_url_witness :
  consistent
    (fst (snd (_http_request downgraded 3 "GET" "host" JNull true
                 (session_v13, [])))).
Proof.
  apply (successful_request_keeps_root_url downgraded 3 "GET" "host" JNull
           true session_v13 [] (JDict [])
           _ [ {| method := "GET"; url := "https://array/api/1.3/host";
                  body := JNull |};
               probe_of "array";
               {| method := "GET"; url := "https://array/api/1.2/host";
                  body := JNull |} ]).
  - reflexivity.
  - reflexivity.
Defined.

(** The token is not accepted: the 401 of the login is raised. *)
Lemma refused_login_is_fatal_witness :
  _http_request locked_out 2 "GET" "host" JNull true (session_v13, [])
  = (Raise (PureAPIException (Some 401%Z) "invalid token"),
     (session_v13,
      [ {| method := "GET"; url := "https://array/api/1.3/host";
           body := JNull |};
        login_of "https://array/api/1.3/" "secret" ])).
Proof.
  apply (refused_login_is_fatal locked_out 0 "GET" "host" JNull session_v13
           [] "secret" "invalid token" 401%Z "invalid token");
    [reflexivity | reflexivity | reflexivity | discriminate].
Defined.

Lemma init_negotiates_then_logs_in_witness :
  __init__ friendly 1 "array" "secret" []
  = (Return tt,
     (session_v12,
      [probe_of "array"; login_of "https://array/api/1.2/" "secret"])).
Proof.
  exact (init_negotiates_then_logs_in friendly 0 "array" "secret" []
           [("version", JList (map JStr ["1.0"; "1.2"; "1.1"]))]
           ["1.0"; "1.2"; "1.1"] "1.2" (JDict [])
           (json_reply_intro json_type "..." _ eq_refl) eq_refl eq_refl
           (json_reply_intro json_type "{}" _ eq_refl)).
Defined.

Lemma init_without_common_version_witness :
  __init__ outdated 1 "array" "secret" []
  = (Raise (PureDriverException no_version_message),
     ({| _target := "array"; _rest_version := None;
         _root_url := "https://array/api/"; _api_token := None |},
      [probe_of "array"])).
Proof.
  exact (init_without_common_version outdated 0 "array" "secret" []
           [("version", JList (map JStr ["1.0"; "1.1"]))] ["1.0"; "1.1"]
           (json_reply_intro json_type "..." _ eq_refl) eq_refl eq_refl).
Defined.

Lemma init_version_rejected_witness :
  __init__ waking_up 2 "array" "secret" []
  = (Raise (PyError "AttributeError"),
     ({| _target := "array"; _rest_version := None;
         _root_url := "https://array/api/"; _api_token := None |},
      [probe_of "array"; probe_of "array"])).
Proof.
  exact (init_version_rejected waking_up 0 "array" "secret" [] "not ready"
           [("version", JList (map JStr ["1.0"; "1.2"; "1.1"]))]
           ["1.0"; "1.2"; "1.1"] "1.2" eq_refl
           (json_reply_intro json_type "..." _ eq_refl) eq_refl eq_refl).
Defined.

Lemma rejected_version_query_never_ends_witness :
  fst (__init__ hostile 1000 "array" "secret" []) = OutOfFuel.
Proof.
  apply (rejected_version_query_never_ends hostile "array").
  intros h. now exists "unsupported version".
Defined.

(** An admin's name is not matched; a generated one is. *)
Lemma generated_name_pattern_witness :
  generated_shape host7 /\ 40 <= String.length host7.
Proof.
  split.
  - apply (proj1 (proj1 (generated_name_pattern host7))). reflexivity.
  - apply (proj2 (generated_name_pattern host7)). reflexivity.
Defined.

Lemma distinct_uuids_distinct_names_witness :
  _generate_purity_host_name "compute1" 7
  <> _generate_purity_host_name "compute1" 8.
Proof.
  apply (distinct_uuids_distinct_names "compute1" 7 8);
    [reflexivity | reflexivity | discriminate].
Defined.

(** *** The driver *)

Import Pure.PureISCSIDriver PureDriverMore.

Lemma get_host_first_match_witness :
  _get_host known compute1 [] = (Return (Some admin_host), [ListHosts])
  /\ _get_host unknown compute1 [] = (Return None, [ListHosts]).
Proof.
  split.
  - exact (get_host_first_match known compute1 [] [other_host; admin_host]
             eq_refl eq_refl).
  - exact (get_host_first_match unknown compute1 [] [other_host]
             eq_refl eq_refl).
Defined.

Lemma connect_creates_host_when_unknown_witness :
  _connect unknown (vol "data") compute1 7 []
  = (Return (connection5 host7),
     [ ListHosts; CreateHost host7 [c_initiator compute1];
       ConnectHost host7 "data-cinder" ])
  /\ Re.re_match GENERATED_NAME host7 = true.
Proof.
  exact (connect_creates_host_when_unknown unknown (vol "data") compute1 7
           [] [other_host] JNull (connection5 host7)
           eq_refl eq_refl eq_refl eq_refl eq_refl).
Defined.

Lemma connect_reuses_existing_host_witness :
  _connect known (vol "data") compute1 7 []
  = (Return (connection5 "admin-host"),
     [ListHosts; ConnectHost "admin-host" "data-cinder"]).
Proof.
  exact (connect_reuses_existing_host known (vol "data") compute1 7 []
           [other_host; admin_host] admin_host "admin-host"
           (connection5 "admin-host")
           eq_refl eq_refl eq_refl eq_refl eq_refl).
Defined.

Lemma connect_passes_other_errors_on_witness :
  _connect lab (vol "data") compute1 8 []
  = (Raise (PureAPIException (Some 400%Z) "Host does not exist."),
     [ ListHosts;
       CreateHost (_generate_purity_host_name "compute1" 8)
         [c_initiator compute1];
       ConnectHost (_generate_purity_host_name "compute1" 8)
         "data-cinder" ]).
Proof.
  exact (proj1
           (connect_passes_other_errors_on lab (vol "data") compute1 8 []
              (_generate_purity_host_name "compute1" 8)
              [ ListHosts;
                CreateHost (_generate_purity_host_name "compute1" 8)
                  [c_initiator compute1] ]
              eq_refl)
           400%Z "Host does not exist." eq_refl eq_refl).
Defined.

Lemma terminate_connection_by_initiator_witness :
  terminate_connection unknown (vol "data") compute1 []
  = (Return tt, [ListHosts])
  /\ terminate_connection known (vol "data") compute1 []
     = (Return tt, [ListHosts; DisconnectHost "admin-host" "data-cinder"]).
Proof.
  split.
  - exact (proj1
             (terminate_connection_by_initiator unknown (vol "data")
                compute1 [] [other_host] eq_refl eq_refl)
             eq_refl).
  - rewrite (proj2
               (terminate_connection_by_initiator known (vol "data")
                  compute1 [] [other_host; admin_host] eq_refl eq_refl)
               admin_host "admin-host" eq_refl eq_refl).
    reflexivity.
Defined.

Lemma delete_volume_disconnects_first_witness :
  exists t,
    issued [] (delete_volume lab (vol "data") [])
    = ListVolumeHosts "data-cinder" :: t ++ [DestroyVolume "data-cinder"]
    /\ In (DisconnectHost "admin-host" "data-cinder") t
    /\ In (DisconnectHost host7 "data-cinder") t.
Proof.
  destruct (delete_volume_disconnects_first lab (vol "data") []
              (JList connections) connections eq_refl eq_refl)
    as (t & Ht & _ & Hd).
  - vm_compute. tauto.
  - exists t. split; [exact Ht|]. split.
    + destruct (Hd (JDict [("host", JStr "admin-host"); ("lun", JInt 1)]))
        as (name & Hn & Hin); [simpl; auto|].
      apply String.eqb_eq in Hn. now subst name.
    + destruct (Hd (JDict [("host", JStr host7); ("lun", JInt 2)]))
        as (name & Hn & Hin); [simpl; auto|].
      apply String.eqb_eq in Hn. now subst name.
Defined.

(** *** The volume operations *)

Import PureVolumeOps VolumeFacts.

Lemma copies_are_only_extended_witness :
  issued [] (create_cloned_volume obliging
               {| v_name := "big"; v_size := 3 |} (vol "data") [])
  = [ CopyVolume "data-cinder" "big-cinder";
      ExtendVolume "big-cinder" 3221225472 ]
  /\ (1 * Gi < 3 * Gi)%Z.
Proof.
  split; [reflexivity|].
  destruct (proj2 (copies_are_only_extended obliging
                     {| v_name := "big"; v_size := 3 |} [])
              (vol "data") (ExtendVolume "big-cinder" 3221225472))
    as [H | (_ & H & _)].
  - simpl. auto.
  - discriminate H.
  - exact H.
Defined.

(** *** The ports *)

Import PureISCSIPorts PortFacts.

Lemma network_discovers reachable : discovers reachable (network reachable).
Proof. intros h portal. reflexivity. Defined.

Lemma choose_port_first_reachable_witness :
  _choose_target_iscsi_port (network only_b) (port_a, [])
  = (Return port_b,
     (port_a,
      [ ListPorts; Discovery (JStr "10.0.0.1:3260");
        Discovery (JStr "10.0.0.2:3260") ])).
Proof.
  exact (choose_port_first_reachable (network only_b) only_b port_a
           [fc_port; port_a; port_b] []
           (network_discovers only_b) eq_refl eq_refl eq_refl).
Defined.

Lemma choose_port_at_setup_witness :
  _choose_target_iscsi_port (network only_b) (JNull, [])
  = (Raise (PyError "TypeError"),
     (JNull, [ListPorts; Discovery (JStr "10.0.0.1:3260")])).
Proof.
  exact (choose_port_at_setup (network only_b) only_b
           [fc_port; port_a; port_b] []
           (network_discovers only_b) eq_refl eq_refl).
Defined.

Lemma get_target_port_keeps_or_replaces_witness :
  _get_target_iscsi_port (network only_b) (port_b, [])
  = (Return port_b, (port_b, [Discovery (JStr "10.0.0.2:3260")]))
  /\ _get_target_iscsi_port (network only_b) (port_a, [])
     = (Return port_b,
        (port_b,
         [ Discovery (JStr "10.0.0.1:3260"); ListPorts;
           Discovery (JStr "10.0.0.1:3260");
           Discovery (JStr "10.0.0.2:3260") ])).
Proof.
  split.
  - exact (proj1
             (get_target_port_keeps_or_replaces (network only_b) only_b
                port_b [] (network_discovers only_b) eq_refl)
             eq_refl).
  - exact (proj2
             (get_target_port_keeps_or_replaces (network only_b) only_b
                port_a [] (network_discovers only_b) eq_refl)
             [fc_port; port_a; port_b] eq_refl eq_refl eq_refl).
Defined.

Lemma initialize_connection_needs_a_port_witness :
  initialize_connection (network none_reachable) unknown (vol "data")
    compute1 7 ((port_a, []), [])
  = (Raise (PureDriverException no_port_message),
     ((port_a,
       [ Discovery (JStr "10.0.0.1:3260"); ListPorts;
         Discovery (JStr "10.0.0.1:3260");
         Discovery (JStr "10.0.0.2:3260") ]), [])).
Proof.
  exact (initialize_connection_needs_a_port (network none_reachable) unknown
           (vol "data") compute1 7 none_reachable port_a
           [fc_port; port_a; port_b] [] []
           (network_discovers none_reachable)
           eq_refl eq_refl eq_refl eq_refl eq_refl).
Defined.

Lemma initialize_connection_properties_witness :
  initialize_connection (network only_b) unknown (vol "data") compute1 7
    ((port_b, []), [])
  = (Return (iscsi_properties (JStr "iqn.2010-06.com.purestorage:b")
               (JStr "10.0.0.2:3260") (JInt 5)),
     ((port_b, [Discovery (JStr "10.0.0.2:3260")]),
      [ PureISCSIDriver.ListHosts;
        PureISCSIDriver.CreateHost host7 [c_initiator compute1];
        PureISCSIDriver.ConnectHost host7 "data-cinder" ])).
Proof.
  exact (initialize_connection_properties (network only_b) unknown
           (vol "data") compute1 7 only_b port_b [] []
           [("host", JStr host7); ("lun", JInt 5);
            ("vol", JStr "data-cinder")]
           _ (network_discovers only_b) eq_refl eq_refl eq_refl).
Defined.

End MoreCases.
